(** * hacheck: the protocol checkers of [hacheck/checker.py]

    A shallow embedding of the six checkers ([check_spool], [check_http],
    [check_https], [check_tcp], [check_mysql], [check_smtp]) and of the
    helper [check_http_https].

    The checkers are tornado coroutines.  They are embedded in a small
    monad [M] that threads the state of one process (simulated clock, log
    of the calls made to collaborators, the coroutine's local [stream]
    variable) and whose results distinguish a value, a raised Python
    exception and a future that never resolves.  A [raise
    tornado.gen.Return(v)] is an exception like any other until the
    [gen.coroutine] wrapper turns it into the result, so it runs through
    [except] and [finally] exactly as in the source.

    Everything outside the file (the peer on the socket, the HTTP client,
    the MySQL client, the spool, the configuration) is an oracle in [Env].
    Times are integers in milliseconds. *)

From Stdlib Require Import ZArith String Ascii List DecimalString Lia.
From stdpp Require Import base gmap strings list.

Local Open Scope Z_scope.

(** ** Values *)

(** [(status, reason)], the tuple every checker hands back. *)
Definition CheckResult : Type := Z * string.

Record HTTPResponse := { code : Z; body : string }.

Record HTTPRequest := {
  url : string;
  method : string;
  req_headers : gmap string string;
  request_timeout : Z;
  follow_redirects : bool;
  validate_cert : bool
}.

(** The exceptions that the collaborators and the Python runtime raise.
    [SocketError] is [socket.error] with its [errno] attribute;
    [OtherError] is any other subclass of [Exception]. *)
Inductive Exn :=
| TimeoutError
| StreamClosedError
| SocketError (errno : option Z)
| HTTPError (status : Z) (response : option HTTPResponse)
| IndexError
| UnicodeDecodeError
| OtherError (descr : string).

(** What a [raise] statement throws: [tornado.gen.Return(value)] or an
    error. *)
Inductive Raise :=
| GenReturn (value : CheckResult)
| Error (e : Exn).

(** A future handed out by a collaborator: it resolves or fails after a
    number of milliseconds, or stays pending for ever. *)
Inductive Awaited (A : Type) :=
| Resolves (after : Z) (v : A)
| Fails (after : Z) (e : Exn)
| Never.
Arguments Resolves {A} after v.
Arguments Fails {A} after e.
Arguments Never {A}.

(** The reply of [mysql.MySQLClient.connect]: the [OK] attribute and the
    text [str(response)]. *)
Record MyResponse := { OK : bool; detail : string }.

(** The second component of [spool.is_up]: a dict with the key [service]
    and the optional keys [creation], [expiration] and [reason].  [None]
    stands for a key that is absent or bound to Python's [None]; the code
    reads the three of them with [dict.get] only. *)
Record ExtraInfo := {
  service : string;
  creation : option Z;
  expiration : option Z;
  reason : option string
}.

(** [config.config] *)
Record Config := {
  http_headers_to_copy : list string;
  service_name_header : option string;
  mysql_username : option string;
  mysql_password : option string
}.

(** The arguments every checker takes ([io_loop] is not modelled). *)
Record Args := {
  service_name : string;
  port : Z;
  query : string;
  query_params : string;
  headers : gmap string string
}.

(** Calls to collaborators, in the order they are made. *)
Inductive Event :=
| EvSocket (fd : nat)
| EvIOStream (fd : nat)
| EvConnect (fd : nat) (host : string) (port : Z)
| EvReadUntil (fd : nat) (delimiter : string)
| EvWrite (fd : nat) (data : string)
| EvClose (fd : nat)
| EvFetch (request : HTTPRequest)
| EvMySQLClient (port : Z) (global_timeout : Z)
| EvMySQLConnect (username password : string)
| EvMySQLQuit
| EvSpoolIsUp (service_name : string) (port : Z).

(** ** The world *)

Record Env := {
  config : Config;
  spool_is_up : string -> Z -> bool * ExtraInfo;
  peer_connect : Z -> Awaited unit;
  peer_read : nat -> Awaited string;
  peer_write : string -> Awaited unit;
  http_fetch : HTTPRequest -> Awaited HTTPResponse;
  mysql_connect : string -> string -> Awaited MyResponse;
  mysql_quit : Awaited unit
}.

Record State := {
  now : Z;
  log : list Event;
  next_fd : nat;
  nread : nat;
  var_stream : option nat;
  future : option CheckResult
}.

Definition tick (d : Z) (st : State) : State :=
  {| now := now st + d; log := log st; next_fd := next_fd st;
     nread := nread st; var_stream := var_stream st; future := future st |}.

Definition log_event (e : Event) (st : State) : State :=
  {| now := now st; log := log st ++ [e]; next_fd := next_fd st;
     nread := nread st; var_stream := var_stream st; future := future st |}.

Definition with_next_fd (n : nat) (st : State) : State :=
  {| now := now st; log := log st; next_fd := n;
     nread := nread st; var_stream := var_stream st; future := future st |}.

Definition with_nread (n : nat) (st : State) : State :=
  {| now := now st; log := log st; next_fd := next_fd st;
     nread := n; var_stream := var_stream st; future := future st |}.

Definition with_stream (s : option nat) (st : State) : State :=
  {| now := now st; log := log st; next_fd := next_fd st;
     nread := nread st; var_stream := s; future := future st |}.

Definition with_future (f : option CheckResult) (st : State) : State :=
  {| now := now st; log := log st; next_fd := next_fd st;
     nread := nread st; var_stream := var_stream st; future := f |}.

(** ** The monad of coroutine bodies *)

Inductive Step (A : Type) :=
| Val (a : A)
| Exc (x : Raise)
| Pending.
Arguments Val {A} a.
Arguments Exc {A} x.
Arguments Pending {A}.

Definition M (A : Type) : Type := Env -> State -> Step A * State.

Definition ret {A} (a : A) : M A := fun _ st => (Val a, st).

Definition bind {A B} (m : M A) (k : A -> M B) : M B := fun env st =>
  match m env st with
  | (Val a, st') => k a env st'
  | (Exc x, st') => (Exc x, st')
  | (Pending, st') => (Pending, st')
  end.

Notation "x <- m ;; k" := (bind m (fun x => k))
  (at level 100, m at next level, right associativity).
Notation "m ;;; k" := (bind m (fun _ => k))
  (at level 100, right associativity).

Definition raise {A} (x : Raise) : M A := fun _ st => (Exc x, st).

(** [raise tornado.gen.Return(value)] *)
Definition gen_return {A} (value : CheckResult) : M A := raise (GenReturn value).

Definition ask : M Env := fun env st => (Val env, st).
Definition get : M State := fun _ st => (Val st, st).
Definition modify (f : State -> State) : M unit := fun _ st => (Val tt, f st).
Definition emit (e : Event) : M unit := modify (log_event e).

(** [yield f]: the coroutine is resumed when the future settles. *)
Definition await {A} (f : Awaited A) : M A := fun _ st =>
  match f with
  | Resolves d v => (Val v, tick d st)
  | Fails d e => (Exc (Error e), tick d st)
  | Never => (Pending, st)
  end.

(** [try: body except <classes>: ...]: [handler e] is [Some h] when one of
    the clauses names a class of [e].  A [GenReturn] is none of the classes
    the clauses of this file name next to a [raise Return] and passes
    through. *)
Definition try_except {A} (body : M A) (handler : Exn -> option (M A)) : M A :=
  fun env st =>
  match body env st with
  | (Exc (Error e), st') =>
      match handler e with
      | Some h => h env st'
      | None => (Exc (Error e), st')
      end
  | r => r
  end.

(** [try: body finally: fin] *)
Definition try_finally {A} (body : M A) (fin : M unit) : M A := fun env st =>
  match body env st with
  | (Pending, st') => (Pending, st')
  | (r, st') =>
      match fin env st' with
      | (Val _, st'') => (r, st'')
      | (Exc x, st'') => (Exc x, st'')
      | (Pending, st'') => (Pending, st'')
      end
  end.

(** ** Library calls *)

(** [time.time()] *)
Definition time_time : M Z := st <- get ;; ret (now st).

(** [tornado.gen.with_timeout(timedelta(seconds=s), f)]: the future [f]
    if it settles before the deadline, a [TimeoutError] at the deadline
    otherwise. *)
Definition with_timeout {A} (seconds : Z) (f : Awaited A) : Awaited A :=
  let deadline := seconds * 1000 in
  match f with
  | Resolves d _ | Fails d _ => if d <? deadline then f else Fails deadline TimeoutError
  | Never => Fails deadline TimeoutError
  end.

(** [socket.socket(AF_INET, SOCK_STREAM, 0)] *)
Definition socket_socket : M nat :=
  st <- get ;;
  let fd := next_fd st in
  modify (with_next_fd (S fd)) ;;;
  emit (EvSocket fd) ;;;
  ret fd.

(** [tornado.iostream.IOStream(s, io_loop=io_loop)]: the constructor wraps
    the socket, does no I/O and succeeds; the stream is known by the
    descriptor of its socket and closing it closes the socket. *)
Definition IOStream (s : nat) : M nat :=
  emit (EvIOStream s) ;;;
  modify (with_nread 0%nat) ;;;
  ret s.

(** [stream.connect((host, port))] as a future *)
Definition stream_connect (stream : nat) (host : string) (port : Z) : M (Awaited unit) :=
  env <- ask ;;
  emit (EvConnect stream host port) ;;;
  ret (peer_connect env port).

(** [stream.read_until(delimiter)] *)
Definition stream_read_until (stream : nat) (delimiter : string) : M (Awaited string) :=
  env <- ask ;;
  st <- get ;;
  emit (EvReadUntil stream delimiter) ;;;
  modify (with_nread (S (nread st))) ;;;
  ret (peer_read env (nread st)).

(** [stream.write(data)] *)
Definition stream_write (stream : nat) (data : string) : M (Awaited unit) :=
  env <- ask ;;
  emit (EvWrite stream data) ;;;
  ret (peer_write env data).

(** [stream.close()] *)
Definition stream_close (stream : nat) : M unit := emit (EvClose stream).

(** Assignment to, and reading of, the local variable [stream]. *)
Definition set_stream (s : option nat) : M unit := modify (with_stream s).
Definition get_stream : M (option nat) := st <- get ;; ret (var_stream st).

(** [socket.error] is listed in an [except] clause: on Python 3 it is
    [OSError], of which [StreamClosedError] is a subclass; on Python 2 it is
    not. *)
Definition is_socket_error (py3 : bool) (e : Exn) : bool :=
  match e with
  | SocketError _ => true
  | StreamClosedError => py3
  | _ => false
  end.

(** ['%d' % n] and [str(n)] *)
Definition str_int (n : Z) : string := NilZero.string_of_int (Z.to_int n).

(** ['%s' % e.errno] *)
Definition str_errno (errno : option Z) : string :=
  match errno with
  | Some n => str_int n
  | None => "None"
  end.

Definition CR : ascii := ascii_of_nat 13.
Definition LF : ascii := ascii_of_nat 10.
Definition CRLF : string := String CR (String LF EmptyString).

(** ** Text *)

Definition byte_val (c : ascii) : Z := Z.of_N (N_of_ascii c).

Definition is_continuation (b : Z) : bool := (128 <=? b) && (b <=? 191).

(** [bytes.decode('utf-8')]: the code points of a well-formed UTF-8
    sequence (shortest form, no surrogates, at most U+10FFFF); [None]
    stands for [UnicodeDecodeError]. *)
Fixpoint decode_utf8 (s : string) : option (list Z) :=
  match s with
  | EmptyString => Some []
  | String c0 r0 =>
      let b0 := byte_val c0 in
      if b0 <? 128 then cons b0 <$> decode_utf8 r0
      else if (194 <=? b0) && (b0 <=? 223) then
        match r0 with
        | String c1 r1 =>
            let b1 := byte_val c1 in
            if is_continuation b1
            then cons ((b0 - 192) * 64 + (b1 - 128)) <$> decode_utf8 r1
            else None
        | _ => None
        end
      else if (224 <=? b0) && (b0 <=? 239) then
        match r0 with
        | String c1 (String c2 r2) =>
            let b1 := byte_val c1 in
            let b2 := byte_val c2 in
            let lo := if b0 =? 224 then 160 else 128 in
            let hi := if b0 =? 237 then 159 else 191 in
            if (lo <=? b1) && (b1 <=? hi) && is_continuation b2
            then cons ((b0 - 224) * 4096 + (b1 - 128) * 64 + (b2 - 128))
                   <$> decode_utf8 r2
            else None
        | _ => None
        end
      else if (240 <=? b0) && (b0 <=? 244) then
        match r0 with
        | String c1 (String c2 (String c3 r3)) =>
            let b1 := byte_val c1 in
            let b2 := byte_val c2 in
            let b3 := byte_val c3 in
            let lo := if b0 =? 240 then 144 else 128 in
            let hi := if b0 =? 244 then 143 else 191 in
            if (lo <=? b1) && (b1 <=? hi) && is_continuation b2 && is_continuation b3
            then cons ((b0 - 240) * 262144 + (b1 - 128) * 4096
                       + (b2 - 128) * 64 + (b3 - 128))
                   <$> decode_utf8 r3
            else None
        | _ => None
        end
      else None
  end.

(** The code points at which [str.split()] splits ([str.isspace]). *)
Definition py_isspace (c : Z) : bool :=
  ((9 <=? c) && (c <=? 13)) || ((28 <=? c) && (c <=? 32))
  || (c =? 133) || (c =? 160) || (c =? 5760)
  || ((8192 <=? c) && (c <=? 8202))
  || (c =? 8232) || (c =? 8233) || (c =? 8239) || (c =? 8287) || (c =? 12288).

(** [str.split()] without arguments: the maximal runs of characters that
    are not white space.  [word] is the run being read, last character
    first. *)
Fixpoint split_from (word : list Z) (text : list Z) : list (list Z) :=
  match text with
  | [] => match word with [] => [] | _ => [rev word] end
  | c :: rest =>
      if py_isspace c
      then match word with
           | [] => split_from [] rest
           | _ => rev word :: split_from [] rest
           end
      else split_from (c :: word) rest
  end.

Definition py_split (text : list Z) : list (list Z) := split_from [] text.

(** The code points of a [str] literal of ASCII characters. *)
Fixpoint code_points (s : string) : list Z :=
  match s with
  | EmptyString => []
  | String c r => byte_val c :: code_points r
  end.

(** [str.startswith] *)
Definition startswith (s p : string) : bool := String.prefix p s.

(** Truth value of a [str]. *)
Definition truthy (s : string) : bool :=
  match s with EmptyString => false | _ => true end.

(** ** The Python runtime

    What the embedding leaves open: the rendering of floats by the [%]
    operator, [repr] of a byte string, [str] of an exception, the package's
    [__version__], and whether the interpreter is Python 3. *)
Class Runtime := {
  fmt_2f : Z -> string;          (* '%.2f' % seconds *)
  fmt_w2f : Z -> string;         (* '%2f' % seconds *)
  fmt_f : Z -> string;           (* '%f' % seconds *)
  repr_bytes : string -> string; (* '{0!r}'.format(data) *)
  str_exn : Exn -> string;       (* '%s' % e *)
  version : string;              (* hacheck.__version__ *)
  py3 : bool
}.

Definition TIMEOUT : Z := 10.

Definition hang {A} : M A := fun _ st => (Pending, st).

(** [@tornado.concurrent.return_future]: [f] is called with a callback
    that resolves the future; the caller gets the future's result. *)
Definition return_future (f : Args -> (CheckResult -> M unit) -> M unit)
  : Args -> M CheckResult := fun a =>
  modify (with_future None) ;;;
  f a (fun result => modify (with_future (Some result))) ;;;
  st <- get ;;
  match future st with
  | Some result => ret result
  | None => hang
  end.

(** [@tornado.gen.coroutine]: runs the generator; the value of the
    [Return] it raises resolves the future, any other exception fails it.
    The generators of this file all end in a [raise], hence [Empty_set]. *)
Definition coroutine (gen : Args -> M Empty_set) : Args -> M CheckResult :=
  fun a env st =>
  match gen a env st with
  | (Val v, _) => match v with end
  | (Exc (GenReturn value), st') => (Val value, st')
  | (Exc (Error e), st') => (Exc (Error e), st')
  | (Pending, st') => (Pending, st')
  end.

(** [mysql.MySQLClient(port=port, global_timeout=TIMEOUT, io_loop=io_loop)],
    [conn.connect(username, password)] and [conn.quit()] *)
Definition MySQLClient (port global_timeout : Z) : M unit :=
  emit (EvMySQLClient port global_timeout).

Definition conn_connect (username password : string) : M (Awaited MyResponse) :=
  env <- ask ;;
  emit (EvMySQLConnect username password) ;;;
  ret (mysql_connect env username password).

Definition conn_quit : M (Awaited unit) :=
  env <- ask ;;
  emit EvMySQLQuit ;;;
  ret (mysql_quit env).

(** [http_client.fetch(request)] *)
Definition http_client_fetch (request : HTTPRequest) : M (Awaited HTTPResponse) :=
  env <- ask ;;
  emit (EvFetch request) ;;;
  ret (http_fetch env request).

(** [quit_response.decode('utf-8')] and [words[0]] *)
Definition decode (data : string) : M (list Z) :=
  match decode_utf8 data with
  | Some text => ret text
  | None => raise (Error UnicodeDecodeError)
  end.

Definition item0 {A} (l : list A) : M A :=
  match l with
  | x :: _ => ret x
  | [] => raise (Error IndexError)
  end.

Definition errno_of (e : Exn) : option Z :=
  match e with
  | SocketError errno => errno
  | _ => None
  end.

(** ** The checkers *)

Section Checkers.
Context `{Runtime}.

(** [cache.cached], the decorator of the cache module. *)
Variable cached : (Args -> M CheckResult) -> Args -> M CheckResult.

(** checker.py, lines 22-34 *)
Definition check_spool_fn (a : Args) (callback : CheckResult -> M unit) : M unit :=
  env <- ask ;;
  emit (EvSpoolIsUp (service_name a) (port a)) ;;;
  let '(up, extra_info) := spool_is_up env (service_name a) (port a) in
  if negb up then
    let info_string := "Service " +:+ service extra_info +:+ " in down state" in
    let info_string :=
      match creation extra_info with
      | Some c => info_string +:+ " since " +:+ fmt_f c
      | None => info_string
      end in
    let info_string :=
      match expiration extra_info with
      | Some e => info_string +:+ " until " +:+ fmt_f e
      | None => info_string
      end in
    let info_string :=
      if truthy (default "" (reason extra_info))
      then info_string +:+ ": " +:+ default "" (reason extra_info)
      else info_string in
    callback (503, info_string)
  else
    callback (200, default "" (reason extra_info)).

Definition check_spool : Args -> M CheckResult := return_future check_spool_fn.

(** checker.py, lines 61-62: the body of the loop over
    [http_headers_to_copy] *)
Definition copy_header (headers headers_out : gmap string string)
    (header : string) : gmap string string :=
  match headers !! header with
  | Some v => <[header := v]> headers_out
  | None => headers_out
  end.

(** checker.py, lines 59-64: the dict [headers_out] *)
Definition headers_out (cfg : Config) (service_name : string)
    (headers : gmap string string) : gmap string string :=
  let headers_out : gmap string string :=
    {[ "User-Agent" := "hastate " +:+ version ]} in
  let headers_out :=
    foldl (copy_header headers) headers_out (http_headers_to_copy cfg) in
  match service_name_header cfg with
  | Some name => if truthy name then <[name := service_name]> headers_out
                 else headers_out
  | None => headers_out
  end.

(** checker.py, lines 51-88; [query a] is the parameter [check_path].
    [except Exception] catches every error of the [try] block. *)
Definition check_http_https (a : Args) (ssl : bool) : M Empty_set :=
  env <- ask ;;
  let method := if ssl then "https" else "http" in
  let qp := query_params a in
  let check_path := query a in
  let check_path :=
    if negb (startswith check_path "/") then "/" +:+ check_path else check_path in
  let headers_out := headers_out (config env) (service_name a) (headers a) in
  let path := method +:+ "://127.0.0.1:" +:+ str_int (port a) +:+ check_path
              +:+ (if truthy qp then "?" +:+ qp else "") in
  let request :=
    {| url := path; method := "GET"; req_headers := headers_out;
       request_timeout := TIMEOUT; follow_redirects := false;
       validate_cert := false |} in
  result <- try_except
    (fut <- http_client_fetch request ;;
     response <- await fut ;;
     ret (code response, body response))
    (fun exc =>
       match exc with
       | HTTPError status response =>
           Some (ret (status, match response with
                              | Some r => body r
                              | None => ""
                              end))
       | e => Some (ret (599, "Unhandled exception " +:+ str_exn e))
       end) ;;
  gen_return result.

Definition check_http_gen (a : Args) : M Empty_set := check_http_https a false.
Definition check_https_gen (a : Args) : M Empty_set := check_http_https a true.

Definition check_http : Args -> M CheckResult := cached (coroutine check_http_gen).
Definition check_https : Args -> M CheckResult := cached (coroutine check_https_gen).

(** The [finally] block of [check_tcp] and [check_smtp]. *)
Definition close_stream : M unit :=
  stream <- get_stream ;;
  match stream with
  | Some s => stream_close s
  | None => ret tt
  end ;;;
  set_stream None.

(** checker.py, lines 93-123 *)
Definition check_tcp_gen (a : Args) : M Empty_set :=
  set_stream None ;;;
  connect_start <- time_time ;;
  s <- socket_socket ;;
  try_finally
    (try_except
       (stream <- IOStream s ;;
        set_stream (Some stream) ;;;
        fut <- stream_connect stream "127.0.0.1" (port a) ;;
        await (with_timeout TIMEOUT fut))
       (fun e =>
          match e with
          | TimeoutError => Some (
              t <- time_time ;;
              gen_return (503, "Connection timed out after "
                               +:+ fmt_2f (t - connect_start) +:+ "s"))
          | _ =>
              if is_socket_error py3 e then Some (
                t <- time_time ;;
                gen_return (503, "Unexpected error " +:+ str_exn e +:+ " after "
                                 +:+ fmt_w2f (t - connect_start) +:+ "s"))
              else None
          end))
    close_stream ;;;
  t <- time_time ;;
  gen_return (200, "Connected in " +:+ fmt_2f (t - connect_start) +:+ "s").

Definition check_tcp : Args -> M CheckResult := cached (coroutine check_tcp_gen).

(** checker.py, lines 128-142.  [timed_out] is defined and not used. *)
Definition check_mysql_gen (a : Args) : M Empty_set :=
  env <- ask ;;
  match mysql_username (config env), mysql_password (config env) with
  | Some username, Some password =>
      let timed_out (duration : Z) : M Empty_set :=
        gen_return (503, "MySQL timed out after " +:+ fmt_2f duration +:+ "s") in
      MySQLClient (port a) TIMEOUT ;;;
      fut <- conn_connect username password ;;
      response <- await fut ;;
      if negb (OK response)
      then gen_return (500, "MySQL sez " +:+ detail response)
      else
        fut <- conn_quit ;;
        await fut ;;;
        gen_return (200, "MySQL connect response: " +:+ detail response)
  | _, _ => gen_return (500, "No MySQL username/pasword in config file")
  end.

Definition check_mysql : Args -> M CheckResult := cached (coroutine check_mysql_gen).

(** checker.py, lines 147-183 *)
Definition check_smtp_gen (a : Args) : M Empty_set :=
  set_stream None ;;;
  connect_start <- time_time ;;
  s <- socket_socket ;;
  try_finally
    (try_except
       (stream <- IOStream s ;;
        set_stream (Some stream) ;;;
        fut <- stream_connect stream "127.0.0.1" (port a) ;;
        await (with_timeout TIMEOUT fut) ;;;
        fut <- stream_read_until stream CRLF ;;
        await fut ;;;
        fut <- stream_write stream ("QUIT" +:+ CRLF) ;;
        await fut ;;;
        fut <- stream_read_until stream CRLF ;;
        quit_response <- await fut ;;
        text <- decode quit_response ;;
        word <- item0 (py_split text) ;;
        if negb (bool_decide (word = code_points "221"))
        then gen_return (503, "Got unexpected QUIT response "
                              +:+ repr_bytes quit_response)
        else ret tt)
       (fun e =>
          match e with
          | TimeoutError => Some (
              t <- time_time ;;
              gen_return (503, "Connection timed out after "
                               +:+ fmt_2f (t - connect_start) +:+ "s"))
          | StreamClosedError => Some (
              gen_return (503, "Peer unexpectedly closed connection"))
          | _ =>
              if is_socket_error py3 e then Some (
                t <- time_time ;;
                gen_return (503, "Unexpected socket error " +:+ str_errno (errno_of e)
                                 +:+ " after " +:+ fmt_w2f (t - connect_start) +:+ "s"))
              else None
          end))
    close_stream ;;;
  t <- time_time ;;
  gen_return (200, "Connected in " +:+ fmt_2f (t - connect_start) +:+ "s").

Definition check_smtp : Args -> M CheckResult := cached (coroutine check_smtp_gen).

End Checkers.

(** ** Reading the log *)

(** The descriptors opened by [socket.socket] in [evs] and not closed by a
    later [close]; [opened] are those open before [evs]. *)
Fixpoint open_fds (opened : list nat) (evs : list Event) : list nat :=
  match evs with
  | [] => opened
  | EvSocket fd :: rest => open_fds (fd :: opened) rest
  | EvClose fd :: rest => open_fds (List.filter (fun x => negb (Nat.eqb x fd)) opened) rest
  | _ :: rest => open_fds opened rest
  end.

(** ** The claims' words *)

(** The three ways a connect attempt under [with_timeout] ends, with the
    time it took. *)
Inductive ConnectAttempt :=
| Connected (elapsed : Z)
| TimedOut (elapsed : Z)
| OSError (e : Exn) (elapsed : Z).

Definition attempt_elapsed (c : ConnectAttempt) : Z :=
  match c with
  | Connected t | TimedOut t | OSError _ t => t
  end.

(** [attempt f c]: the future [f] of [stream.connect], raced against the
    timer of [TIMEOUT] seconds, ends as [c]. *)
Inductive attempt (f : Awaited unit) : ConnectAttempt -> Prop :=
| attempt_connected d :
    f = Resolves d tt -> d < TIMEOUT * 1000 -> attempt f (Connected d)
| attempt_late d v :
    f = Resolves d v -> TIMEOUT * 1000 <= d -> attempt f (TimedOut (TIMEOUT * 1000))
| attempt_late_error d e :
    f = Fails d e -> TIMEOUT * 1000 <= d -> attempt f (TimedOut (TIMEOUT * 1000))
| attempt_never :
    f = Never -> attempt f (TimedOut (TIMEOUT * 1000))
| attempt_oserror d errno :
    f = Fails d (SocketError errno) -> d < TIMEOUT * 1000 ->
    attempt f (OSError (SocketError errno) d).

(** [smtp_stops env port e t]: in the SMTP exchange on [port] the first
    operation that does not succeed fails with [e], [t] milliseconds after
    the start: the guarded connect (by its own failure or by the timer),
    the read of the greeting, the write of QUIT or the read of the reply. *)
Inductive smtp_stops (env : Env) (port : Z) : Exn -> Z -> Prop :=
| stops_timer t :
    attempt (peer_connect env port) (TimedOut t) ->
    smtp_stops env port TimeoutError t
| stops_connect d e :
    peer_connect env port = Fails d e -> d < TIMEOUT * 1000 ->
    smtp_stops env port e d
| stops_greeting d0 d1 e :
    peer_connect env port = Resolves d0 tt -> d0 < TIMEOUT * 1000 ->
    peer_read env 0%nat = Fails d1 e ->
    smtp_stops env port e (d0 + d1)
| stops_write d0 d1 greeting d2 e :
    peer_connect env port = Resolves d0 tt -> d0 < TIMEOUT * 1000 ->
    peer_read env 0%nat = Resolves d1 greeting ->
    peer_write env ("QUIT" +:+ CRLF) = Fails d2 e ->
    smtp_stops env port e (d0 + (d1 + d2))
| stops_reply d0 d1 greeting d2 d3 e :
    peer_connect env port = Resolves d0 tt -> d0 < TIMEOUT * 1000 ->
    peer_read env 0%nat = Resolves d1 greeting ->
    peer_write env ("QUIT" +:+ CRLF) = Resolves d2 tt ->
    peer_read env 1%nat = Fails d3 e ->
    smtp_stops env port e (d0 + (d1 + (d2 + d3))).

(** The result the TCP checker owes to each of them. *)
Definition tcp_result `{Runtime} (c : ConnectAttempt) : CheckResult :=
  match c with
  | Connected t => (200, "Connected in " +:+ fmt_2f t +:+ "s")
  | TimedOut t => (503, "Connection timed out after " +:+ fmt_2f t +:+ "s")
  | OSError e t =>
      (503, "Unexpected error " +:+ str_exn e +:+ " after " +:+ fmt_w2f t +:+ "s")
  end.

(** An optional clause of the spool checker's message. *)
Definition clause (prefix : string) (field : option string) : string :=
  match field with
  | Some text => prefix +:+ text
  | None => ""
  end.

(** The result the spool checker owes to a reply of [spool.is_up]. *)
Definition spool_result `{Runtime} (reply : bool * ExtraInfo) : CheckResult :=
  let '(up, info) := reply in
  if up then (200, default "" (reason info))
  else (503, "Service " +:+ service info +:+ " in down state"
             +:+ clause " since " (fmt_f <$> creation info)
             +:+ clause " until " (fmt_f <$> expiration info)
             +:+ clause ": " (match reason info with
                              | Some "" | None => None
                              | Some text => Some text
                              end)).

(** ** Sample worlds *)

(** A runtime that prints times by truncation. *)
Definition sample_runtime : Runtime := {|
  fmt_2f := fun ms => str_int (ms / 1000) +:+ "." +:+ str_int (ms mod 1000 / 100)
                      +:+ str_int (ms mod 100 / 10);
  fmt_w2f := fun ms => str_int (ms / 1000) +:+ "." +:+ str_int (ms mod 1000);
  fmt_f := fun ms => str_int (ms / 1000) +:+ "." +:+ str_int (ms mod 1000);
  repr_bytes := fun data => "b'" +:+ data +:+ "'";
  str_exn := fun e => match e with OtherError descr => descr | _ => "error" end;
  version := "0.9.0";
  py3 := true
|}.

Definition sample_args : Args := {|
  service_name := "web"; port := 8080; query := "status";
  query_params := ""; headers := {[ "X-Request-Id" := "42" ]}
|}.

Definition sample_state : State := {|
  now := 0; log := []; next_fd := 3%nat; nread := 0%nat;
  var_stream := None; future := None
|}.

Definition sample_config (username password : option string) : Config := {|
  http_headers_to_copy := ["X-Request-Id"];
  service_name_header := Some "X-Service";
  mysql_username := username;
  mysql_password := password
|}.

Definition sample_info : ExtraInfo := {|
  service := "web"; creation := Some 5000; expiration := None;
  reason := Some "maintenance"
|}.

(** A world whose peer accepts the connection after 30 ms and answers the
    reads with [greeting] and then [quit_response]; the MySQL client's
    [connect] behaves as [handshake]; the spool answers [spool]. *)
Definition sample_env (username password : option string)
    (greeting quit_response : Awaited string)
    (handshake : Awaited MyResponse) (spool : bool * ExtraInfo) : Env := {|
  config := sample_config username password;
  spool_is_up := fun _ _ => spool;
  peer_connect := fun _ => Resolves 30 tt;
  peer_read := fun n => match n with O => greeting | _ => quit_response end;
  peer_write := fun _ => Resolves 1 tt;
  http_fetch := fun _ => Resolves 12 {| code := 200; body := "OK" |};
  mysql_connect := fun _ _ => handshake;
  mysql_quit := Resolves 1 tt
|}.

(** An SMTP server that greets and answers [QUIT] with [quit_response]. *)
Definition smtp_env (quit_response : Awaited string) : Env :=
  sample_env None None (Resolves 5 ("220 ok" +:+ CRLF)) quit_response
             Never (true, sample_info).

(** A MySQL server whose handshake behaves as [handshake]. *)
Definition mysql_env (username password : option string)
    (handshake : Awaited MyResponse) : Env :=
  sample_env username password Never Never handshake (true, sample_info).

(** A spool that answers [spool]. *)
Definition spool_env (spool : bool * ExtraInfo) : Env :=
  sample_env None None Never Never Never spool.

(** [env] with the connect behaving as [connect]. *)
Definition with_connect (connect : Awaited unit) (env : Env) : Env := {|
  config := config env;
  spool_is_up := spool_is_up env;
  peer_connect := fun _ => connect;
  peer_read := peer_read env;
  peer_write := peer_write env;
  http_fetch := http_fetch env;
  mysql_connect := mysql_connect env;
  mysql_quit := mysql_quit env
|}.

(** [env] with the MySQL client's [quit] behaving as [quit]. *)
Definition with_quit (quit : Awaited unit) (env : Env) : Env := {|
  config := config env;
  spool_is_up := spool_is_up env;
  peer_connect := peer_connect env;
  peer_read := peer_read env;
  peer_write := peer_write env;
  http_fetch := http_fetch env;
  mysql_connect := mysql_connect env;
  mysql_quit := quit
|}.

(** The sample configuration with the allow-list written twice over. *)
Definition repeating_config : Config := {|
  http_headers_to_copy := ["X-Request-Id"; "X-Request-Id"];
  service_name_header := Some "X-Service";
  mysql_username := None;
  mysql_password := None
|}.

(** ** Weakest preconditions *)

(** [wp m env st Q]: running [m] in [env] from [st] ends in a result and
    a state that satisfy [Q]. *)
Definition wp {A} (m : M A) (env : Env) (st : State)
    (Q : Step A -> State -> Prop) : Prop :=
  Q (m env st).1 (m env st).2.


(** ** Symbolic execution *)

Lemma append_assoc (s1 s2 s3 : string) : (s1 +:+ s2) +:+ s3 = s1 +:+ s2 +:+ s3.
Proof.
  induction s1 as [|c s1 IH]; [reflexivity|].
  change (String c ((s1 +:+ s2) +:+ s3) = String c (s1 +:+ s2 +:+ s3)).
  now rewrite IH.
Qed.

Lemma append_nil_r (s : string) : s +:+ "" = s.
Proof.
  induction s as [|c s IH]; [reflexivity|].
  change (String c (s +:+ "") = String c s). now rewrite IH.
Qed.

Lemma append_nil_l (s : string) : "" +:+ s = s.
Proof. reflexivity. Qed.

Lemma wp_elim {A} (m : M A) env st Q r st' :
  wp m env st Q -> m env st = (r, st') -> Q r st'.
Proof. unfold wp. intros HQ E. rewrite E in HQ. exact HQ. Qed.

Lemma wp_let {A} (m : M A) env st Q :
  wp m env st Q -> let '(r, st') := m env st in Q r st'.
Proof. unfold wp. intros HQ. destruct (m env st) as [r st']. exact HQ. Qed.

Lemma wp_fst {A} (m : M A) env st (P : Step A -> Prop) :
  wp m env st (fun r _ => P r) -> P (m env st).1.
Proof. exact id. Qed.

Lemma wp_ret {A} (a : A) env st Q : Q (Val a) st -> wp (ret a) env st Q.
Proof. exact id. Qed.

Lemma wp_raise {A} (x : Raise) env st (Q : Step A -> State -> Prop) :
  Q (Exc x) st -> wp (raise x) env st Q.
Proof. exact id. Qed.

Lemma wp_hang {A} env st (Q : Step A -> State -> Prop) :
  Q Pending st -> wp hang env st Q.
Proof. exact id. Qed.

Lemma wp_ask env st Q : Q (Val env) st -> wp ask env st Q.
Proof. exact id. Qed.

Lemma wp_get env st Q : Q (Val st) st -> wp get env st Q.
Proof. exact id. Qed.

Lemma wp_modify f env st Q : Q (Val tt) (f st) -> wp (modify f) env st Q.
Proof. exact id. Qed.

Lemma wp_await {A} (f : Awaited A) env st Q :
  match f with
  | Resolves d v => Q (Val v) (tick d st)
  | Fails d e => Q (Exc (Error e)) (tick d st)
  | Never => Q Pending st
  end ->
  wp (await f) env st Q.
Proof. unfold wp, await. now destruct f. Qed.

Lemma wp_bind {A B} (m : M A) (k : A -> M B) env st Q :
  wp m env st (fun r st' =>
    match r with
    | Val a => wp (k a) env st' Q
    | Exc x => Q (Exc x) st'
    | Pending => Q Pending st'
    end) ->
  wp (bind m k) env st Q.
Proof. unfold wp, bind. now destruct (m env st) as [[a|x|] st']. Qed.

Lemma wp_try_except {A} (body : M A) handler env st Q :
  wp body env st (fun r st' =>
    match r with
    | Exc (Error e) =>
        match handler e with
        | Some h => wp h env st' Q
        | None => Q (Exc (Error e)) st'
        end
    | _ => Q r st'
    end) ->
  wp (try_except body handler) env st Q.
Proof.
  unfold wp, try_except.
  destruct (body env st) as [[a|[v|e]|] st']; cbn [fst snd]; try exact id.
  now destruct (handler e).
Qed.

Lemma wp_try_finally {A} (body : M A) fin env st Q :
  wp body env st (fun r st' =>
    match r with
    | Pending => Q Pending st'
    | _ => wp fin env st' (fun r' st'' =>
             match r' with
             | Val _ => Q r st''
             | Exc x => Q (Exc x) st''
             | Pending => Q Pending st''
             end)
    end) ->
  wp (try_finally body fin) env st Q.
Proof.
  unfold wp, try_finally.
  destruct (body env st) as [[a|x|] st']; cbn [fst snd]; try exact id;
    now destruct (fin env st') as [[[]|x'|] st''].
Qed.

Lemma wp_coroutine gen a env st Q :
  wp (gen a) env st (fun r st' =>
    match r with
    | Val v => False
    | Exc (GenReturn value) => Q (Val value) st'
    | Exc (Error e) => Q (Exc (Error e)) st'
    | Pending => Q Pending st'
    end) ->
  wp (coroutine gen a) env st Q.
Proof.
  unfold wp, coroutine.
  now destruct (gen a env st) as [[[]|[v|e]|] st'].
Qed.

Ltac red_state :=
  cbn [fst snd now log next_fd nread var_stream future tick log_event
       with_next_fd with_nread with_stream with_future negb is_socket_error
       errno_of].

Ltac head_of t :=
  lazymatch t with
  | ?f _ => head_of f
  | _ => t
  end.

(** One step of the program under [wp]. *)
Ltac wp_step :=
  lazymatch goal with
  | |- wp (bind _ _) _ _ _ => apply wp_bind
  | |- wp (ret _) _ _ _ => apply wp_ret
  | |- wp (raise _) _ _ _ => apply wp_raise
  | |- wp hang _ _ _ => apply wp_hang
  | |- wp ask _ _ _ => apply wp_ask
  | |- wp get _ _ _ => apply wp_get
  | |- wp (modify _) _ _ _ => apply wp_modify
  | |- wp (await _) _ _ _ => apply wp_await
  | |- wp (try_except _ _) _ _ _ => apply wp_try_except
  | |- wp (try_finally _ _) _ _ _ => apply wp_try_finally
  | |- wp (coroutine _ _) _ _ _ => apply wp_coroutine
  | H : ?x = _ |- wp (match ?x with _ => _ end) _ _ _ => rewrite H
  | |- wp (if negb ?b then _ else _) _ _ _ => destruct b eqn:?
  | |- wp (if ?b then _ else _) _ _ _ => destruct b eqn:?
  | |- wp (match ?x with _ => _ end) _ _ _ => destruct x eqn:?
  | |- wp (let 'pair _ _ := ?x in _) _ _ _ => destruct x eqn:?
  | |- wp ?m _ _ _ =>
      let h := head_of m in
      unfold h
  end;
  cbv beta iota; red_state.

Ltac wp_run := cbv beta iota; red_state; repeat wp_step.

Ltac scrutinee x :=
  lazymatch x with
  | match ?y with _ => _ end => scrutinee y
  | _ => x
  end.

(** A case distinction on what the world answers. *)
Ltac wp_case :=
  lazymatch goal with
  | H : ?x = _ |- match ?x with _ => _ end => rewrite H
  | |- match ?x with _ => _ end =>
      let y := scrutinee x in
      destruct y eqn:?
  end;
  wp_run.

Ltac tidy_log := rewrite <- ?app_assoc; cbn [app].

Section Properties.
Context `{Runtime}.

(** *** TCP *)

Lemma attempt_with_timeout (f : Awaited unit) (c : ConnectAttempt) :
  attempt f c ->
  with_timeout TIMEOUT f =
    match c with
    | Connected d => Resolves d tt
    | TimedOut d => Fails d TimeoutError
    | OSError e d => Fails d e
    end.
Proof.
  intros [d Hf Hd|d v Hf Hd|d e Hf Hd|Hf|d errno Hf Hd]; subst f; cbn [with_timeout];
    try reflexivity;
    destruct (Z.ltb_spec d (TIMEOUT * 1000)); try reflexivity; lia.
Qed.

(** Every connect attempt ends in one of the three ways, unless the
    connect fails within the timeout with an exception that is not a
    [socket.error]. *)
Lemma attempt_total (f : Awaited unit) :
  (exists c, attempt f c)
  \/ (exists d e, f = Fails d e /\ d < TIMEOUT * 1000
                  /\ forall errno, e <> SocketError errno).
Proof.
  destruct f as [d []|d e|].
  - destruct (Z.lt_ge_cases d (TIMEOUT * 1000)).
    + left. exists (Connected d). now apply attempt_connected.
    + left. exists (TimedOut (TIMEOUT * 1000)). now apply (attempt_late _ d tt).
  - destruct (Z.lt_ge_cases d (TIMEOUT * 1000)).
    + destruct e; try (right; exists d; eexists; repeat split; [assumption|discriminate]).
      left. exists (OSError (SocketError errno) d). now apply attempt_oserror.
    + left. exists (TimedOut (TIMEOUT * 1000)). now apply (attempt_late_error _ d e).
  - left. exists (TimedOut (TIMEOUT * 1000)). now apply attempt_never.
Qed.

(** A future under [with_timeout] always settles. *)
Lemma with_timeout_settles {A} (f : Awaited A) : with_timeout TIMEOUT f <> Never.
Proof.
  destruct f as [d v|d e|]; cbn [with_timeout]; try discriminate;
    destruct (d <? TIMEOUT * 1000); discriminate.
Qed.

(** The TCP checker awaits nothing but the guarded connect: it always
    exits. *)
Lemma check_tcp_exits (a : Args) (env : Env) (st : State) :
  (coroutine check_tcp_gen a env st).1 <> Pending.
Proof.
  apply (wp_fst _ _ _ (fun r => r <> Pending)). wp_run.
  destruct (with_timeout TIMEOUT (peer_connect env (port a))) as [d []|d e|] eqn:Hw;
    [| |now apply with_timeout_settles in Hw]; wp_run; repeat wp_case; discriminate.
Qed.

Ltac elapsed := rewrite <- ?Z.add_assoc, ?Z.add_simpl_l.

Ltac closed_log :=
  eexists; split;
  [tidy_log; reflexivity
  |split; [cbn [open_fds List.filter]; rewrite ?Nat.eqb_refl; reflexivity | reflexivity]].

(** *** SMTP *)

Lemma connected_in_time (f : Awaited unit) d :
  f = Resolves d tt -> d < TIMEOUT * 1000 -> with_timeout TIMEOUT f = Resolves d tt.
Proof. intros Hf Hd. exact (attempt_with_timeout f _ (attempt_connected f d Hf Hd)). Qed.

(** The handshake when the peer connects and answers both reads and the
    write: the result is decided by the first word of the reply to QUIT. *)
Lemma smtp_handshake (a : Args) (env : Env) (st : State)
    d0 d1 d2 d3 greeting quit_response :
  peer_connect env (port a) = Resolves d0 tt -> d0 < TIMEOUT * 1000 ->
  peer_read env 0%nat = Resolves d1 greeting ->
  peer_write env ("QUIT" +:+ CRLF) = Resolves d2 tt ->
  peer_read env 1%nat = Resolves d3 quit_response ->
  (coroutine check_smtp_gen a env st).1 =
    match decode_utf8 quit_response with
    | None => Exc (Error UnicodeDecodeError)
    | Some text =>
        match py_split text with
        | [] => Exc (Error IndexError)
        | word :: _ =>
            if bool_decide (word = code_points "221")
            then Val (200, "Connected in " +:+ fmt_2f (d0 + (d1 + (d2 + d3))) +:+ "s")
            else Val (503, "Got unexpected QUIT response " +:+ repr_bytes quit_response)
        end
    end.
Proof.
  intros Hc Hd0 Hg Hw Hq. pose proof (connected_in_time _ _ Hc Hd0) as Ht.
  apply wp_fst. wp_run. repeat wp_case.
  all: elapsed; reflexivity.
Qed.

(** After the connection is made nothing bounds the wait for the
    greeting: the coroutine stays suspended and the stream stays open. *)
Lemma smtp_silent_peer (a : Args) (env : Env) (st : State) d0 :
  peer_connect env (port a) = Resolves d0 tt -> d0 < TIMEOUT * 1000 ->
  peer_read env 0%nat = Never ->
  let '(r, st') := coroutine check_smtp_gen a env st in
  r = Pending
  /\ log st' = log st ++ [EvSocket (next_fd st); EvIOStream (next_fd st);
                          EvConnect (next_fd st) "127.0.0.1" (port a);
                          EvReadUntil (next_fd st) CRLF].
Proof.
  intros Hc Hd0 Hg. pose proof (connected_in_time _ _ Hc Hd0) as Ht.
  apply wp_let. wp_run. repeat wp_case. tidy_log. split; reflexivity.
Qed.

(** *** MySQL *)

Lemma mysql_no_credentials (a : Args) (env : Env) (st : State) :
  mysql_username (config env) = None \/ mysql_password (config env) = None ->
  coroutine check_mysql_gen a env st =
    (Val (500, "No MySQL username/pasword in config file"), st).
Proof.
  intros Hcred.
  enough (Hwp : wp (coroutine check_mysql_gen a) env st
                   (fun r st' => (r, st') = (Val (500, "No MySQL username/pasword in config file"), st))).
  { unfold wp in Hwp. rewrite <- Hwp. now destruct (coroutine _ _ _ _). }
  wp_run; try reflexivity; destruct Hcred; congruence.
Qed.

(** The codes the MySQL checker can return. *)
Lemma mysql_codes (a : Args) (env : Env) (st : State) :
  match (coroutine check_mysql_gen a env st).1 with
  | Val (status, _) => status = 500 \/ status = 200
  | _ => True
  end.
Proof.
  apply (wp_fst _ _ _ (fun r => match r with Val (status, _) => status = 500 \/ status = 200 | _ => True end)).
  wp_run; repeat wp_case; auto.
Qed.

Lemma mysql_handshake_fails (a : Args) (env : Env) (st : State)
    username password d e :
  mysql_username (config env) = Some username ->
  mysql_password (config env) = Some password ->
  mysql_connect env username password = Fails d e ->
  (coroutine check_mysql_gen a env st).1 = Exc (Error e).
Proof.
  intros Hu Hp Hc. apply wp_fst. wp_run. repeat wp_case. reflexivity.
Qed.

Lemma mysql_handshake_pending (a : Args) (env : Env) (st : State)
    username password :
  mysql_username (config env) = Some username ->
  mysql_password (config env) = Some password ->
  mysql_connect env username password = Never ->
  (coroutine check_mysql_gen a env st).1 = Pending.
Proof.
  intros Hu Hp Hc. apply wp_fst. wp_run. repeat wp_case. reflexivity.
Qed.

(** *** Spool *)

Lemma spool_query (a : Args) (env : Env) (st : State) :
  let '(r, st') := check_spool a env st in
  r = Val (spool_result (spool_is_up env (service_name a) (port a)))
  /\ log st' = log st ++ [EvSpoolIsUp (service_name a) (port a)].
Proof.
  apply wp_let. unfold check_spool. wp_run; (split; [|reflexivity]).
  - reflexivity.
  - destruct e as [svc [c|] [x|] [[|ch rs]|]];
      cbn [spool_result clause creation expiration reason service default
           truthy fmap option_fmap option_map];
      rewrite ?append_assoc, ?append_nil_r, ?append_nil_l; reflexivity.
Qed.

(** *** HTTP *)

Lemma copy_headers_lookup (headers acc : gmap string string) (l : list string)
    (k v : string) :
  foldl (copy_header headers) acc l !! k = Some v ->
  acc !! k = Some v \/ (k ∈ l /\ headers !! k = Some v).
Proof.
  revert acc. induction l as [|h l IH]; intros acc Hk; [now left|].
  cbn [foldl] in Hk. apply IH in Hk as [Hk|[Hin Hv]].
  - unfold copy_header in Hk. destruct (headers !! h) as [x|] eqn:Hh; [|now left].
    destruct (decide (h = k)) as [->|Hne].
    + rewrite lookup_insert_eq in Hk. injection Hk as ->.
      right. split; [apply list_elem_of_here | exact Hh].
    + rewrite lookup_insert_ne in Hk by exact Hne. now left.
  - right. split; [now apply list_elem_of_further | exact Hv].
Qed.

Lemma copy_headers_keeps (headers acc : gmap string string) (l : list string)
    (k : string) :
  is_Some (acc !! k) -> is_Some (foldl (copy_header headers) acc l !! k).
Proof.
  revert acc. induction l as [|h l IH]; intros acc Hk; [exact Hk|].
  cbn [foldl]. apply IH. unfold copy_header.
  destruct (headers !! h); [|exact Hk].
  apply lookup_insert_is_Some'. now right.
Qed.

Lemma truthy_nonempty (s : string) : truthy s = true <-> s <> "".
Proof. destruct s; cbn; split; congruence. Qed.

(** The HTTP checker turns every failure of the fetch into a result. *)
Lemma http_never_raises (a : Args) (env : Env) (st : State) (ssl : bool) :
  match (coroutine (fun a => check_http_https a ssl) a env st).1 with
  | Exc _ => False
  | _ => True
  end.
Proof.
  apply (wp_fst _ _ _ (fun r => match r with Exc _ => False | _ => True end)).
  wp_run; repeat wp_case; exact I.
Qed.

Lemma http_fetch_request (a : Args) (env : Env) (st : State) (ssl : bool) :
  exists request,
    log (coroutine (fun a => check_http_https a ssl) a env st).2
    = log st ++ [EvFetch request]
    /\ req_headers request = headers_out (config env) (service_name a) (headers a)
    /\ method request = "GET"
    /\ follow_redirects request = false.
Proof.
  eapply (wp_elim (coroutine (fun a => check_http_https a ssl) a) env st
            (fun _ st' => exists request, log st' = log st ++ [EvFetch request] /\ _));
    [|apply surjective_pairing].
  wp_run; repeat wp_case; eexists; (split; [reflexivity|]); repeat split.
Qed.

Lemma headers_out_origin (cfg : Config) (name : string)
    (headers : gmap string string) (k v : string) :
  headers_out cfg name headers !! k = Some v ->
  (k = "User-Agent" /\ v = "hastate " +:+ version)
  \/ (k ∈ http_headers_to_copy cfg /\ headers !! k = Some v)
  \/ (service_name_header cfg = Some k /\ k <> "" /\ v = name).
Proof.
  assert (Hcopied : forall k v,
    foldl (copy_header headers) {[ "User-Agent" := "hastate " +:+ version ]}
          (http_headers_to_copy cfg) !! k = Some v ->
    (k = "User-Agent" /\ v = "hastate " +:+ version)
    \/ (k ∈ http_headers_to_copy cfg /\ headers !! k = Some v)
    \/ (service_name_header cfg = Some k /\ k <> "" /\ v = name)).
  { intros k' v' Hk. apply copy_headers_lookup in Hk as [Hk|Hk]; [|now right; left].
    apply lookup_singleton_Some in Hk as [<- <-]. now left. }
  unfold headers_out. destruct (service_name_header cfg) as [h|]; [|apply Hcopied].
  destruct (truthy h) eqn:Hh; [|apply Hcopied].
  intros Hk. apply lookup_insert_Some in Hk as [[<- <-]|[_ Hk]]; [|now apply Hcopied].
  right; right. repeat split. now apply truthy_nonempty.
Qed.

Lemma headers_out_user_agent (cfg : Config) (name : string)
    (headers : gmap string string) :
  is_Some (headers_out cfg name headers !! "User-Agent").
Proof.
  assert (Hcopied : is_Some (
    foldl (copy_header headers) {[ "User-Agent" := "hastate " +:+ version ]}
          (http_headers_to_copy cfg) !! "User-Agent")).
  { apply copy_headers_keeps. rewrite lookup_singleton_eq. eauto. }
  unfold headers_out. destruct (service_name_header cfg) as [h|]; [|exact Hcopied].
  destruct (truthy h); [|exact Hcopied].
  apply lookup_insert_is_Some'. now right.
Qed.

Lemma headers_out_service_name (cfg : Config) (name : string)
    (headers : gmap string string) (h : string) :
  service_name_header cfg = Some h -> h <> "" ->
  headers_out cfg name headers !! h = Some name.
Proof.
  intros Hcfg Hh. unfold headers_out. rewrite Hcfg.
  apply truthy_nonempty in Hh. rewrite Hh. apply lookup_insert_eq.
Qed.

(** ** The claims *)

(** C1 (the code departs from the claim).  The claim: every checker turns
    every failure into a [(status, reason)] result, the SMTP checker also
    when the reply to QUIT is an empty line or holds no word.  The code:
    against a server that greets and answers QUIT with the bare line
    [CRLF], or with blanks only, [words[0]] raises [IndexError], no
    [except] clause of [check_smtp] names it, and the coroutine fails with
    it. *)
Theorem check_smtp_empty_quit_reply_raises (a : Args) (st : State) :
  (coroutine check_smtp_gen a (smtp_env (Resolves 7 CRLF)) st).1
  = Exc (Error IndexError)
  /\ (coroutine check_smtp_gen a (smtp_env (Resolves 7 ("   " +:+ CRLF))) st).1
     = Exc (Error IndexError).
Proof.
  split.
  - rewrite (smtp_handshake a _ st 30 5 1 7 ("220 ok" +:+ CRLF) CRLF);
      reflexivity.
  - rewrite (smtp_handshake a _ st 30 5 1 7 ("220 ok" +:+ CRLF) ("   " +:+ CRLF));
      reflexivity.
Qed.

(** C2 (the code departs from the claim).  The claim: without a configured
    user name or password the MySQL checker returns
    [(500, "No MySQL username/password in config file")] and makes no
    connection attempt.  The code: no call is made (the state, log
    included, is unchanged), but the reason is spelt "pasword". *)
Theorem check_mysql_missing_credentials_message (a : Args) (st : State)
    (username password : option string) (handshake : Awaited MyResponse) :
  coroutine check_mysql_gen a (mysql_env None password handshake) st
  = (Val (500, "No MySQL username/pasword in config file"), st)
  /\ coroutine check_mysql_gen a (mysql_env username None handshake) st
     = (Val (500, "No MySQL username/pasword in config file"), st)
  /\ "No MySQL username/pasword in config file"
     <> "No MySQL username/password in config file".
Proof.
  split; [|split].
  - apply mysql_no_credentials. now left.
  - apply mysql_no_credentials. now right.
  - discriminate.
Qed.

(** C3 (the code departs from the claim).  The claim: one timeout covers
    connect and handshake, so that an unresponsive peer yields
    [(503, "Connection timed out after ...")].  The code: only the connect
    is under [with_timeout].  A peer that accepts the connection and never
    greets leaves the check suspended for ever; one that greets after 60
    seconds gets [200] with an elapsed time of 60.038 seconds. *)
Theorem check_smtp_handshake_unbounded (a : Args) (st : State) :
  (coroutine check_smtp_gen a
     (sample_env None None Never Never Never (true, sample_info)) st).1
  = Pending
  /\ (coroutine check_smtp_gen a
        (sample_env None None (Resolves 60000 ("220 ok" +:+ CRLF))
           (Resolves 7 ("221 bye" +:+ CRLF)) Never (true, sample_info)) st).1
     = Val (200, "Connected in " +:+ fmt_2f 60038 +:+ "s").
Proof.
  split.
  - pose proof (smtp_silent_peer a
      (sample_env None None Never Never Never (true, sample_info)) st 30
      eq_refl eq_refl eq_refl) as Hs.
    destruct (coroutine check_smtp_gen a _ st) as [r st']. apply Hs.
  - rewrite (smtp_handshake a _ st 30 60000 1 7 ("220 ok" +:+ CRLF)
               ("221 bye" +:+ CRLF)); reflexivity.
Qed.

(** C4 (the code departs from the claim).  The claim: when the MySQL
    handshake times out the result is
    [(503, "MySQL timed out after ...")].  The code: [timed_out] is defined
    and never called or handed to the client.  A [connect] that fails with a
    timeout fails the coroutine, one that never settles leaves it suspended,
    and in no world does the checker return a status other than 500 or
    200. *)
Theorem check_mysql_timeout_unreported (a : Args) (st : State) :
  (coroutine check_mysql_gen a
     (mysql_env (Some "monitor") (Some "secret")
                (Fails (TIMEOUT * 1000) TimeoutError)) st).1
  = Exc (Error TimeoutError)
  /\ (coroutine check_mysql_gen a
        (mysql_env (Some "monitor") (Some "secret") Never) st).1
     = Pending
  /\ forall env : Env,
       match (coroutine check_mysql_gen a env st).1 with
       | Val (status, _) => status = 500 \/ status = 200
       | _ => True
       end.
Proof.
  split; [|split].
  - now apply (mysql_handshake_fails a _ st "monitor" "secret" (TIMEOUT * 1000)).
  - now apply (mysql_handshake_pending a _ st "monitor" "secret").
  - intros env. apply mysql_codes.
Qed.

(** C5 (the code departs from the claim).  The claim: once the connect and
    the two reads succeed, the result is
    [(503, "Got unexpected QUIT response <raw>")] unless the leading word
    of the reply to QUIT is "221", and [(200, "Connected in <elapsed>s")]
    if it is.  The code: against a server whose connect and two reads
    succeed and whose reply is the bare line [CRLF], or the byte 255
    before [CRLF], the check returns neither of the two: [words[0]] raises
    [IndexError], respectively [decode] raises [UnicodeDecodeError], and
    the coroutine fails with it.  This is the defect of C1, seen from the
    reply. *)
Theorem check_smtp_reply_without_token (a : Args) (st : State) :
  let env := smtp_env (Resolves 7 CRLF) in
  let env' := smtp_env (Resolves 7 (String (ascii_of_nat 255) CRLF)) in
  (peer_connect env (port a) = Resolves 30 tt
   /\ peer_read env 0%nat = Resolves 5 ("220 ok" +:+ CRLF)
   /\ peer_read env 1%nat = Resolves 7 CRLF
   /\ (coroutine check_smtp_gen a env st).1 = Exc (Error IndexError))
  /\ (peer_connect env' (port a) = Resolves 30 tt
      /\ peer_read env' 0%nat = Resolves 5 ("220 ok" +:+ CRLF)
      /\ peer_read env' 1%nat = Resolves 7 (String (ascii_of_nat 255) CRLF)
      /\ (coroutine check_smtp_gen a env' st).1 = Exc (Error UnicodeDecodeError)).
Proof.
  intros env env'. split; (split; [reflexivity|]); (split; [reflexivity|]);
    (split; [reflexivity|]).
  - unfold env.
    rewrite (smtp_handshake a _ st 30 5 1 7 ("220 ok" +:+ CRLF) CRLF);
      reflexivity.
  - unfold env'.
    rewrite (smtp_handshake a _ st 30 5 1 7 ("220 ok" +:+ CRLF)
               (String (ascii_of_nat 255) CRLF)); reflexivity.
Qed.

(** X18.  When the connect (within the timeout), the read of the greeting,
    the write of QUIT and the read of the reply succeed, and the reply
    decodes to a text whose first white-space separated word is [word], the
    SMTP checker returns [(503, "Got unexpected QUIT response <raw>")] if
    [word] is not "221" and [(200, "Connected in <elapsed>s")] if it is;
    nothing else of the reply matters. *)
Theorem check_smtp_quit_token (a : Args) (env : Env) (st : State)
    (d0 d1 d2 d3 : Z) (greeting quit_response : string)
    (text word : list Z) (rest : list (list Z)) :
  peer_connect env (port a) = Resolves d0 tt -> d0 < TIMEOUT * 1000 ->
  peer_read env 0%nat = Resolves d1 greeting ->
  peer_write env ("QUIT" +:+ CRLF) = Resolves d2 tt ->
  peer_read env 1%nat = Resolves d3 quit_response ->
  decode_utf8 quit_response = Some text ->
  py_split text = word :: rest ->
  (coroutine check_smtp_gen a env st).1 =
    Val (if bool_decide (word <> code_points "221")
         then (503, "Got unexpected QUIT response " +:+ repr_bytes quit_response)
         else (200, "Connected in " +:+ fmt_2f (d0 + (d1 + (d2 + d3))) +:+ "s")).
Proof.
  intros Hc Hd0 Hg Hw Hq Htext Hword.
  rewrite (smtp_handshake a env st d0 d1 d2 d3 greeting quit_response Hc Hd0 Hg Hw Hq).
  rewrite Htext, Hword.
  destruct (decide (word = code_points "221")) as [Heq|Hne].
  - rewrite (bool_decide_eq_true_2 _ Heq).
    rewrite bool_decide_eq_false_2; [reflexivity | tauto].
  - rewrite (bool_decide_eq_false_2 _ Hne).
    rewrite (bool_decide_eq_true_2 _ Hne). reflexivity.
Qed.

(** C6.  The TCP checker's result is determined by how the connect
    attempt ends: connected within the timeout gives
    [(200, "Connected in <elapsed>s")], the timeout
    [(503, "Connection timed out after <elapsed>s")], an OS-level error
    [(503, "Unexpected error <err> after <elapsed>s")].  [<elapsed>] is the
    time that passed since the clock was read before the socket was made,
    that is the time the attempt took. *)
Theorem check_tcp_three_outcomes (a : Args) (env : Env) (st : State)
    (c : ConnectAttempt) :
  attempt (peer_connect env (port a)) c ->
  let '(r, st') := coroutine check_tcp_gen a env st in
  r = Val (tcp_result c)
  /\ now st' = now st + attempt_elapsed c
  /\ log st' = log st ++ [EvSocket (next_fd st); EvIOStream (next_fd st);
                          EvConnect (next_fd st) "127.0.0.1" (port a);
                          EvClose (next_fd st)].
Proof.
  intros Hc. pose proof (attempt_with_timeout _ _ Hc) as Hw.
  apply wp_let. wp_run. rewrite Hw.
  destruct Hc; wp_run; tidy_log; elapsed; repeat split; reflexivity.
Qed.

(** C7.  [check_spool] is not wrapped by the cache: each call asks
    [spool.is_up] once, so two calls in a row against spools in different
    states return what each state demands.  [check_http], [check_https],
    [check_tcp], [check_mysql] and [check_smtp] are the cache layer applied
    to the coroutine: a cache layer that answers from its store returns the
    stored result and no probe runs. *)
Theorem spool_never_cached (a : Args) (env1 env2 : Env) (st : State) :
  (let '(r1, st1) := check_spool a env1 st in
   let '(r2, st2) := check_spool a env2 st1 in
   r1 = Val (spool_result (spool_is_up env1 (service_name a) (port a)))
   /\ r2 = Val (spool_result (spool_is_up env2 (service_name a) (port a)))
   /\ log st2 = log st ++ [EvSpoolIsUp (service_name a) (port a);
                           EvSpoolIsUp (service_name a) (port a)])
  /\ (forall cached,
        check_http cached = cached (coroutine check_http_gen)
        /\ check_https cached = cached (coroutine check_https_gen)
        /\ check_tcp cached = cached (coroutine check_tcp_gen)
        /\ check_mysql cached = cached (coroutine check_mysql_gen)
        /\ check_smtp cached = cached (coroutine check_smtp_gen))
  /\ (forall (stored : CheckResult) (env : Env),
        let hit : (Args -> M CheckResult) -> Args -> M CheckResult :=
          fun _ _ => ret stored in
        check_http hit a env st = (Val stored, st)
        /\ check_https hit a env st = (Val stored, st)
        /\ check_tcp hit a env st = (Val stored, st)
        /\ check_mysql hit a env st = (Val stored, st)
        /\ check_smtp hit a env st = (Val stored, st)).
Proof.
  split; [|split].
  - pose proof (spool_query a env1 st) as H1.
    destruct (check_spool a env1 st) as [r1 st1]. destruct H1 as [-> Hl1].
    pose proof (spool_query a env2 st1) as H2.
    destruct (check_spool a env2 st1) as [r2 st2]. destruct H2 as [-> Hl2].
    repeat split. rewrite Hl2, Hl1. tidy_log. reflexivity.
  - intros cached. repeat split.
  - intros stored env hit. repeat split.
Qed.

(** C8.  A spool check returns, for a service reported down,
    [(503, "Service <name> in down state")] followed by [" since
    <creation>"], [" until <expiration>"] and [": <reason>"], each of them
    only if the reply holds the field (the reason only if it is not empty);
    for a service reported up it returns [(200, reason)], with the empty
    string for a missing reason. *)
Theorem check_spool_message (a : Args) (env : Env) (st : State) :
  (check_spool a env st).1 =
    Val (let '(up, info) := spool_is_up env (service_name a) (port a) in
         if up then (200, default "" (reason info))
         else (503, "Service " +:+ service info +:+ " in down state"
                    +:+ clause " since " (fmt_f <$> creation info)
                    +:+ clause " until " (fmt_f <$> expiration info)
                    +:+ clause ": " (match reason info with
                                     | Some "" | None => None
                                     | Some text => Some text
                                     end))).
Proof.
  pose proof (spool_query a env st) as Hq.
  destruct (check_spool a env st) as [r st']. destruct Hq as [-> _].
  reflexivity.
Qed.

(** C9.  On every exit of [check_tcp] and [check_smtp] (a result or a
    raised exception, whatever the peer did) the socket the check opened
    and wrapped in a stream has been closed, and the variable [stream] is
    unbound, when the result is handed back. *)
Theorem stream_closed_on_every_exit (gen : Args -> M Empty_set)
    (a : Args) (env : Env) (st : State) (r : Step CheckResult) (st' : State) :
  gen = check_tcp_gen \/ gen = check_smtp_gen ->
  coroutine gen a env st = (r, st') ->
  r <> Pending ->
  exists evs,
    log st' = log st ++ EvSocket (next_fd st) :: EvIOStream (next_fd st) :: evs
    /\ open_fds [] (EvSocket (next_fd st) :: EvIOStream (next_fd st) :: evs) = []
    /\ var_stream st' = None.
Proof.
  intros Hgen Hrun Hexit. revert Hexit. pattern r, st'.
  eapply wp_elim; [|exact Hrun]. clear Hrun.
  destruct Hgen as [-> | ->]; wp_run; repeat wp_case.
  all: intros Hexit; try (now destruct Hexit); closed_log.
Qed.

(** C10.  The request that an HTTP or HTTPS check fetches carries the dict
    [headers_out].  That dict always has an entry [User-Agent].  Each of its
    entries is the [User-Agent] entry with the value ["hastate <version>"],
    or a header of the caller whose name is in [http_headers_to_copy], or
    the configured service-name header with the service name as its value;
    and when a service-name header is configured, its entry holds the
    service name. *)
Theorem outbound_headers (a : Args) (env : Env) (st : State) (ssl : bool) :
  let cfg := config env in
  let hs := headers_out cfg (service_name a) (headers a) in
  (exists request,
     log (coroutine (fun a => check_http_https a ssl) a env st).2
     = log st ++ [EvFetch request]
     /\ req_headers request = hs)
  /\ is_Some (hs !! "User-Agent")
  /\ (forall k v : string,
        hs !! k = Some v ->
        (k = "User-Agent" /\ v = "hastate " +:+ version)
        \/ (k ∈ http_headers_to_copy cfg /\ headers a !! k = Some v)
        \/ (service_name_header cfg = Some k /\ k <> "" /\ v = service_name a))
  /\ (forall name : string,
        service_name_header cfg = Some name -> name <> "" ->
        hs !! name = Some (service_name a)).
Proof.
  intros cfg hs. split; [|split; [|split]].
  - destruct (http_fetch_request a env st ssl) as (request & Hlog & Hhs & _).
    exists request. now split.
  - apply headers_out_user_agent.
  - intros k v. apply headers_out_origin.
  - intros name. apply headers_out_service_name.
Qed.

End Properties.


(** ** The theorems at sample worlds *)

Lemma check_smtp_quit_token_witness :
  (coroutine (@check_smtp_gen sample_runtime) sample_args
     (smtp_env (Resolves 7 ("500 error" +:+ CRLF))) sample_state).1
  = Val (503, "Got unexpected QUIT response b'500 error" +:+ CRLF +:+ "'").
Proof.
  exact (@check_smtp_quit_token sample_runtime sample_args
           (smtp_env (Resolves 7 ("500 error" +:+ CRLF))) sample_state
           30 5 1 7 ("220 ok" +:+ CRLF) ("500 error" +:+ CRLF)
           (code_points ("500 error" +:+ CRLF))
           (code_points "500") [code_points "error"]
           eq_refl eq_refl eq_refl eq_refl eq_refl eq_refl eq_refl).
Defined.

Lemma check_tcp_three_outcomes_witness :
  let '(r, st') :=
    coroutine (@check_tcp_gen sample_runtime) sample_args
      (smtp_env Never) sample_state in
  r = Val (200, "Connected in 0.03s")
  /\ now st' = 30
  /\ log st' = [EvSocket 3; EvIOStream 3; EvConnect 3 "127.0.0.1" 8080; EvClose 3].
Proof.
  exact (@check_tcp_three_outcomes sample_runtime sample_args (smtp_env Never)
           sample_state (Connected 30)
           (attempt_connected _ 30 eq_refl eq_refl)).
Defined.

Lemma stream_closed_on_every_exit_witness :
  exists evs,
    log (coroutine (@check_smtp_gen sample_runtime) sample_args
           (smtp_env (Resolves 7 CRLF)) sample_state).2
    = log sample_state ++ EvSocket 3 :: EvIOStream 3 :: evs
    /\ open_fds [] (EvSocket 3 :: EvIOStream 3 :: evs) = []
    /\ var_stream (coroutine (@check_smtp_gen sample_runtime) sample_args
                     (smtp_env (Resolves 7 CRLF)) sample_state).2 = None.
Proof.
  refine (@stream_closed_on_every_exit sample_runtime
            (@check_smtp_gen sample_runtime) sample_args
            (smtp_env (Resolves 7 CRLF)) sample_state
            (Exc (Error IndexError)) _ (or_intror eq_refl) _ _).
  - vm_compute. reflexivity.
  - discriminate.
Defined.

Lemma outbound_headers_witness :
  headers_out (H := sample_runtime) (sample_config None None) "web"
    (headers sample_args) !! "X-Service" = Some "web".
Proof.
  apply (@outbound_headers sample_runtime sample_args (smtp_env Never)
           sample_state false).
  - reflexivity.
  - discriminate.
Defined.

(** ** Further properties of the checkers *)

Section Further.
Context `{Runtime}.

Ltac elapsed := rewrite <- ?Z.add_assoc, ?Z.add_simpl_l.

Lemma failed_in_time {A} (f : Awaited A) d e :
  f = Fails d e -> d < TIMEOUT * 1000 -> with_timeout TIMEOUT f = Fails d e.
Proof.
  intros -> Hd. cbn [with_timeout].
  destruct (Z.ltb_spec d (TIMEOUT * 1000)); [reflexivity | lia].
Qed.

(** The dict after the loop over the allow-list: an allow-listed name that
    the caller supplies holds the caller's value, every other name holds
    what it held before. *)
Lemma copy_headers_spec (headers acc : gmap string string) (l : list string)
    (k : string) :
  foldl (copy_header headers) acc l !! k =
    if bool_decide (k ∈ l)
    then match headers !! k with Some v => Some v | None => acc !! k end
    else acc !! k.
Proof.
  revert acc. induction l as [|h l IH]; intros acc; cbn [foldl].
  - rewrite bool_decide_eq_false_2 by apply not_elem_of_nil. reflexivity.
  - rewrite IH. unfold copy_header.
    destruct (decide (k = h)) as [->|Hne].
    + rewrite (bool_decide_eq_true_2 (h ∈ h :: l)) by apply list_elem_of_here.
      destruct (headers !! h) as [x|] eqn:Hh.
      * rewrite lookup_insert_eq. now destruct (bool_decide (h ∈ l)).
      * now destruct (bool_decide (h ∈ l)).
    + assert (Hl : bool_decide (k ∈ h :: l) = bool_decide (k ∈ l)).
      { apply bool_decide_ext. rewrite elem_of_cons. tauto. }
      rewrite Hl.
      destruct (headers !! h) as [x|]; [|reflexivity].
      rewrite lookup_insert_ne by congruence. reflexivity.
Qed.

Lemma with_timeout_bound {A} (f : Awaited A) :
  match with_timeout TIMEOUT f with
  | Resolves d _ => d < TIMEOUT * 1000
  | Fails d _ => d <= TIMEOUT * 1000
  | Never => False
  end.
Proof.
  destruct f as [d v|d e|]; cbn [with_timeout]; [| |lia];
    destruct (Z.ltb_spec d (TIMEOUT * 1000)); lia.
Qed.

Lemma decode_ascii (c : ascii) (s : string) :
  byte_val c < 128 ->
  decode_utf8 (String c s) = cons (byte_val c) <$> decode_utf8 s.
Proof.
  intros Hc. cbn [decode_utf8].
  destruct (Z.ltb_spec (byte_val c) 128); [reflexivity | lia].
Qed.

(** *** HTTP and HTTPS *)

(** X1.  An HTTP or HTTPS check makes exactly one fetch and never raises:
    a response gives [(response.code, response.body)], an [HTTPError] its
    code with the body of its response, or the empty string when it has
    none, and any other exception [(599, "Unhandled exception <e>")]. *)
Theorem http_result_of_fetch (a : Args) (env : Env) (st : State) (ssl : bool) :
  let '(r, st') := coroutine (fun a => check_http_https a ssl) a env st in
  exists request,
    log st' = log st ++ [EvFetch request]
    /\ r = match http_fetch env request with
           | Resolves _ response => Val (code response, body response)
           | Fails _ (HTTPError status (Some response)) => Val (status, body response)
           | Fails _ (HTTPError status None) => Val (status, "")
           | Fails _ e => Val (599, "Unhandled exception " +:+ str_exn e)
           | Never => Pending
           end.
Proof.
  apply wp_let. wp_run.
  match goal with
  | |- match http_fetch env ?request with _ => _ end =>
      destruct (http_fetch env request) as [d response|d e|] eqn:Hfetch
  end; wp_run; repeat wp_case.
  all: eexists; split; [reflexivity|]; rewrite Hfetch; try reflexivity.
  all: match goal with
       | |- context [match ?o with Some _ => _ | None => _ end] => destruct o
       end; reflexivity.
Qed.

(** X2.  The request of an HTTP or HTTPS check is a GET of
    [<scheme>://127.0.0.1:<port><path><query>] where the scheme is [https]
    exactly for the HTTPS check, the path is the check path with a [/] put
    in front unless it has one, and the query is [?] and the query
    parameters unless these are empty; it carries the timeout [TIMEOUT],
    follows no redirects and validates no certificate. *)
Theorem http_request_shape (a : Args) (env : Env) (st : State) (ssl : bool) :
  exists request path,
    log (coroutine (fun a => check_http_https a ssl) a env st).2
    = log st ++ [EvFetch request]
    /\ url request = (if ssl then "https" else "http") +:+ "://127.0.0.1:"
                     +:+ str_int (port a) +:+ path
                     +:+ (if bool_decide (query_params a = "") then ""
                          else "?" +:+ query_params a)
    /\ startswith path "/" = true
    /\ path = (if startswith (query a) "/" then query a else "/" +:+ query a)
    /\ method request = "GET"
    /\ request_timeout request = TIMEOUT
    /\ follow_redirects request = false
    /\ validate_cert request = false.
Proof.
  destruct (startswith (query a) "/") eqn:Hs;
    destruct (query_params a) as [|c qp] eqn:Hq.
  all: eapply (wp_elim (coroutine (fun a => check_http_https a ssl) a) env st
            (fun _ st' => exists request path,
               log st' = log st ++ [EvFetch request] /\ _));
    [|apply surjective_pairing].
  all: wp_run; rewrite ?Hs, ?Hq; repeat wp_case.
  all: eexists; eexists; (split; [reflexivity|]);
    cbn [url method request_timeout follow_redirects validate_cert negb truthy];
    repeat split; try reflexivity; try exact Hs; destruct (query a); reflexivity.
Qed.

(** *** The headers of the request *)

(** X3.  A header of the caller whose name is in [http_headers_to_copy] is
    always forwarded with the caller's value, unless it is the configured
    service-name header. *)
Theorem allowed_header_is_copied (cfg : Config) (name : string)
    (headers : gmap string string) (k v : string) :
  k ∈ http_headers_to_copy cfg ->
  headers !! k = Some v ->
  (service_name_header cfg = Some k -> k = "") ->
  headers_out cfg name headers !! k = Some v.
Proof.
  intros Hin Hk Hsvc.
  assert (Hcopied :
    foldl (copy_header headers) {[ "User-Agent" := "hastate " +:+ version ]}
          (http_headers_to_copy cfg) !! k = Some v).
  { rewrite copy_headers_spec, Hk. now rewrite bool_decide_eq_true_2. }
  unfold headers_out. destruct (service_name_header cfg) as [h|]; [|exact Hcopied].
  destruct (truthy h) eqn:Hh; [|exact Hcopied].
  rewrite lookup_insert_ne; [exact Hcopied|].
  intros ->. rewrite (Hsvc eq_refl) in Hh. discriminate.
Qed.

(** X4.  The headers sent depend on [http_headers_to_copy] as a set only:
    two configurations that list the same names, in any order and with any
    repetitions, and agree on the service-name header give the same
    headers. *)
Theorem headers_out_allow_list_as_set (cfg cfg' : Config) (name : string)
    (headers : gmap string string) :
  (forall k, k ∈ http_headers_to_copy cfg <-> k ∈ http_headers_to_copy cfg') ->
  service_name_header cfg = service_name_header cfg' ->
  headers_out cfg name headers = headers_out cfg' name headers.
Proof.
  intros Hset Hsvc.
  assert (Hcopied :
    foldl (copy_header headers) {[ "User-Agent" := "hastate " +:+ version ]}
          (http_headers_to_copy cfg)
    = foldl (copy_header headers) {[ "User-Agent" := "hastate " +:+ version ]}
            (http_headers_to_copy cfg')).
  { apply map_eq. intros k. rewrite !copy_headers_spec.
    now rewrite (bool_decide_ext _ _ (Hset k)). }
  unfold headers_out. now rewrite Hsvc, Hcopied.
Qed.

(** X5.  Unless the caller supplies an allow-listed [User-Agent] or the
    service-name header is [User-Agent], the request identifies the checker:
    its [User-Agent] is ["hastate <version>"]. *)
Theorem default_user_agent (cfg : Config) (name : string)
    (headers : gmap string string) :
  "User-Agent" ∉ http_headers_to_copy cfg \/ headers !! "User-Agent" = None ->
  service_name_header cfg <> Some "User-Agent" ->
  headers_out cfg name headers !! "User-Agent" = Some ("hastate " +:+ version).
Proof.
  intros Hcaller Hsvc.
  assert (Hcopied :
    foldl (copy_header headers) {[ "User-Agent" := "hastate " +:+ version ]}
          (http_headers_to_copy cfg) !! "User-Agent"
    = Some ("hastate " +:+ version)).
  { rewrite copy_headers_spec, lookup_singleton_eq.
    destruct Hcaller as [Hout|Hnone].
    - now rewrite bool_decide_eq_false_2.
    - rewrite Hnone. now destruct (bool_decide _). }
  unfold headers_out. destruct (service_name_header cfg) as [h|]; [|exact Hcopied].
  destruct (truthy h); [|exact Hcopied].
  rewrite lookup_insert_ne; [exact Hcopied | congruence].
Qed.

(** *** MySQL *)

(** X6.  With credentials configured, a handshake that the server answers
    with a response that is not OK gives [(500, "MySQL sez <response>")];
    the client was built for the check's port with the timeout [TIMEOUT],
    [connect] got the configured credentials and [quit] is not called. *)
Theorem check_mysql_refused (a : Args) (env : Env) (st : State)
    (username password : string) (d : Z) (response : MyResponse) :
  mysql_username (config env) = Some username ->
  mysql_password (config env) = Some password ->
  mysql_connect env username password = Resolves d response ->
  OK response = false ->
  let '(r, st') := coroutine check_mysql_gen a env st in
  r = Val (500, "MySQL sez " +:+ detail response)
  /\ log st' = log st ++ [EvMySQLClient (port a) TIMEOUT;
                          EvMySQLConnect username password].
Proof.
  intros Hu Hp Hc Hok. apply wp_let. wp_run. repeat wp_case.
  all: try discriminate. tidy_log. split; reflexivity.
Qed.

(** X7.  With credentials configured, a handshake answered OK is followed
    by [quit], and once that is done the result is
    [(200, "MySQL connect response: <response>")]. *)
Theorem check_mysql_accepted (a : Args) (env : Env) (st : State)
    (username password : string) (d d' : Z) (response : MyResponse) :
  mysql_username (config env) = Some username ->
  mysql_password (config env) = Some password ->
  mysql_connect env username password = Resolves d response ->
  OK response = true ->
  mysql_quit env = Resolves d' tt ->
  let '(r, st') := coroutine check_mysql_gen a env st in
  r = Val (200, "MySQL connect response: " +:+ detail response)
  /\ log st' = log st ++ [EvMySQLClient (port a) TIMEOUT;
                          EvMySQLConnect username password; EvMySQLQuit].
Proof.
  intros Hu Hp Hc Hok Hq. apply wp_let. wp_run. repeat wp_case.
  all: try discriminate. tidy_log. split; reflexivity.
Qed.

(** X8.  A failure of [quit] after a handshake answered OK is not turned
    into a result: the check fails with the exception of [quit]. *)
Theorem check_mysql_quit_failure_escapes (a : Args) (env : Env) (st : State)
    (username password : string) (d d' : Z) (response : MyResponse) (e : Exn) :
  mysql_username (config env) = Some username ->
  mysql_password (config env) = Some password ->
  mysql_connect env username password = Resolves d response ->
  OK response = true ->
  mysql_quit env = Fails d' e ->
  (coroutine check_mysql_gen a env st).1 = Exc (Error e).
Proof.
  intros Hu Hp Hc Hok Hq. apply wp_fst. wp_run. repeat wp_case.
  all: try discriminate. reflexivity.
Qed.

(** *** TCP *)

(** X9.  The TCP check always comes to an end, and does so at most
    [TIMEOUT] seconds after it started, whatever the peer does. *)
Theorem check_tcp_within_timeout (a : Args) (env : Env) (st : State) :
  let '(r, st') := coroutine check_tcp_gen a env st in
  r <> Pending /\ now st' <= now st + TIMEOUT * 1000.
Proof.
  apply wp_let. wp_run.
  pose proof (with_timeout_bound (peer_connect env (port a))) as Hb.
  destruct (with_timeout TIMEOUT (peer_connect env (port a))) as [d []|d e|];
    [| |destruct Hb]; wp_run; repeat wp_case; (split; [discriminate | lia]).
Qed.

(** X10.  A connect that fails within the timeout with an exception that
    is neither the timeout nor a [socket.error] is not turned into a
    result: the TCP check fails with that exception. *)
Theorem check_tcp_other_error_escapes (a : Args) (env : Env) (st : State)
    (d : Z) (e : Exn) :
  peer_connect env (port a) = Fails d e -> d < TIMEOUT * 1000 ->
  e <> TimeoutError -> is_socket_error py3 e = false ->
  (coroutine check_tcp_gen a env st).1 = Exc (Error e).
Proof.
  intros Hc Hd Hne Hse. pose proof (failed_in_time _ _ _ Hc Hd) as Ht.
  apply wp_fst. wp_run. repeat wp_case.
  all: cbn [is_socket_error] in Hse; try discriminate Hse;
    try (exfalso; apply Hne; reflexivity); reflexivity.
Qed.

(** *** Spool *)

(** X11.  A spool check answers at once and asks nothing but the spool: it
    returns, never raises, takes no time, and its status is 200 if
    [spool.is_up] reports the service up and 503 if not. *)
Theorem check_spool_status (a : Args) (env : Env) (st : State) :
  let '(r, st') := check_spool a env st in
  (exists reason,
     r = Val (if (spool_is_up env (service_name a) (port a)).1 then 200 else 503,
              reason))
  /\ now st' = now st
  /\ log st' = log st ++ [EvSpoolIsUp (service_name a) (port a)].
Proof.
  apply wp_let. unfold check_spool. wp_run;
    (split; [eexists; reflexivity | split; reflexivity]).
Qed.

(** *** SMTP *)

(** X12.  When an operation of the SMTP exchange fails (the guarded
    connect, the read of the greeting, the write of QUIT or the read of the
    reply), the result depends on the exception alone: a timeout gives
    [(503, "Connection timed out after <elapsed>s")], a closed stream
    [(503, "Peer unexpectedly closed connection")], a [socket.error]
    [(503, "Unexpected socket error <errno> after <elapsed>s")], with the
    time since the start as elapsed time; any other exception is not turned
    into a result and fails the check. *)
Theorem smtp_failure (a : Args) (env : Env) (st : State) (e : Exn) (t : Z) :
  smtp_stops env (port a) e t ->
  (coroutine check_smtp_gen a env st).1 =
    match e with
    | TimeoutError =>
        Val (503, "Connection timed out after " +:+ fmt_2f t +:+ "s")
    | StreamClosedError => Val (503, "Peer unexpectedly closed connection")
    | SocketError errno =>
        Val (503, "Unexpected socket error " +:+ str_errno errno +:+ " after "
                  +:+ fmt_w2f t +:+ "s")
    | _ => Exc (Error e)
    end.
Proof.
  intros [t' Ha|d e' Hc Hd|d0 d1 e' Hc Hd Hg|d0 d1 g d2 e' Hc Hd Hg Hw
          |d0 d1 g d2 d3 e' Hc Hd Hg Hw Hq].
  - pose proof (attempt_with_timeout _ _ Ha) as Ht.
    apply wp_fst. wp_run. repeat wp_case. elapsed. reflexivity.
  - pose proof (failed_in_time _ _ _ Hc Hd) as Ht.
    apply wp_fst. wp_run. repeat wp_case. all: elapsed; reflexivity.
  - pose proof (connected_in_time _ _ Hc Hd) as Ht.
    apply wp_fst. wp_run. repeat wp_case. all: elapsed; reflexivity.
  - pose proof (connected_in_time _ _ Hc Hd) as Ht.
    apply wp_fst. wp_run. repeat wp_case. all: elapsed; reflexivity.
  - pose proof (connected_in_time _ _ Hc Hd) as Ht.
    apply wp_fst. wp_run. repeat wp_case. all: elapsed; reflexivity.
Qed.

(** X13.  When the guarded connect of the SMTP check runs into the timer,
    the result is [(503, "Connection timed out after <elapsed>s")] with the
    [TIMEOUT] seconds as elapsed time; nothing is read or written and the
    stream is closed. *)
Theorem check_smtp_connect_timeout (a : Args) (env : Env) (st : State) (t : Z) :
  attempt (peer_connect env (port a)) (TimedOut t) ->
  let '(r, st') := coroutine check_smtp_gen a env st in
  r = Val (503, "Connection timed out after " +:+ fmt_2f (TIMEOUT * 1000) +:+ "s")
  /\ log st' = log st ++ [EvSocket (next_fd st); EvIOStream (next_fd st);
                          EvConnect (next_fd st) "127.0.0.1" (port a);
                          EvClose (next_fd st)].
Proof.
  intros Ha. pose proof (attempt_with_timeout _ _ Ha) as Ht.
  assert (t = TIMEOUT * 1000) as -> by (inversion Ha; reflexivity).
  apply wp_let. wp_run. repeat wp_case. tidy_log. elapsed.
  split; reflexivity.
Qed.

(** X14.  When connect, greeting, write and reply all succeed, the SMTP
    check has made, in this order, the calls: socket, stream, connect to
    127.0.0.1, read of a line, write of [QUIT] and CRLF, read of a line,
    close; and it has come to an end, whatever the reply holds. *)
Theorem check_smtp_exchange (a : Args) (env : Env) (st : State)
    (d0 d1 d2 d3 : Z) (greeting quit_response : string) :
  peer_connect env (port a) = Resolves d0 tt -> d0 < TIMEOUT * 1000 ->
  peer_read env 0%nat = Resolves d1 greeting ->
  peer_write env ("QUIT" +:+ CRLF) = Resolves d2 tt ->
  peer_read env 1%nat = Resolves d3 quit_response ->
  let '(r, st') := coroutine check_smtp_gen a env st in
  r <> Pending
  /\ now st' = now st + (d0 + (d1 + (d2 + d3)))
  /\ log st' = log st ++ [EvSocket (next_fd st); EvIOStream (next_fd st);
                          EvConnect (next_fd st) "127.0.0.1" (port a);
                          EvReadUntil (next_fd st) CRLF;
                          EvWrite (next_fd st) ("QUIT" +:+ CRLF);
                          EvReadUntil (next_fd st) CRLF;
                          EvClose (next_fd st)].
Proof.
  intros Hc Hd0 Hg Hw Hq. pose proof (connected_in_time _ _ Hc Hd0) as Ht.
  apply wp_let. wp_run. repeat wp_case.
  all: tidy_log; split; [discriminate|]; split; [lia | reflexivity].
Qed.

(** X15.  A reply to QUIT that begins with the three characters [221]
    followed by an ASCII white-space character (a blank, or the CR of a
    bare [221] line) is accepted, whatever follows, as long as the reply
    is valid UTF-8: the result is [(200, "Connected in <elapsed>s")]. *)
Theorem check_smtp_accepts_221 (a : Args) (env : Env) (st : State)
    (d0 d1 d2 d3 : Z) (greeting : string) (sp : ascii) (rest : string)
    (text : list Z) :
  peer_connect env (port a) = Resolves d0 tt -> d0 < TIMEOUT * 1000 ->
  peer_read env 0%nat = Resolves d1 greeting ->
  peer_write env ("QUIT" +:+ CRLF) = Resolves d2 tt ->
  peer_read env 1%nat = Resolves d3 ("221" +:+ String sp rest) ->
  byte_val sp < 128 -> py_isspace (byte_val sp) = true ->
  decode_utf8 rest = Some text ->
  (coroutine check_smtp_gen a env st).1
  = Val (200, "Connected in " +:+ fmt_2f (d0 + (d1 + (d2 + d3))) +:+ "s").
Proof.
  intros Hc Hd0 Hg Hw Hq Hsp Hws Hrest.
  rewrite (smtp_handshake a env st d0 d1 d2 d3 greeting _ Hc Hd0 Hg Hw Hq).
  change ("221" +:+ String sp rest)
    with (String "2" (String "2" (String "1" (String sp rest)))).
  rewrite !decode_ascii by (assumption || reflexivity). rewrite Hrest.
  cbn [fmap option_fmap option_map].
  unfold py_split. cbn [split_from].
  change (py_isspace (byte_val "2")) with false.
  change (py_isspace (byte_val "1")) with false.
  cbn iota. rewrite Hws. reflexivity.
Qed.

(** X16.  A reply to QUIT that is not valid UTF-8 is not turned into a
    result: the SMTP check fails with [UnicodeDecodeError]. *)
Theorem check_smtp_undecodable_reply (a : Args) (env : Env) (st : State)
    (d0 d1 d2 d3 : Z) (greeting quit_response : string) :
  peer_connect env (port a) = Resolves d0 tt -> d0 < TIMEOUT * 1000 ->
  peer_read env 0%nat = Resolves d1 greeting ->
  peer_write env ("QUIT" +:+ CRLF) = Resolves d2 tt ->
  peer_read env 1%nat = Resolves d3 quit_response ->
  decode_utf8 quit_response = None ->
  (coroutine check_smtp_gen a env st).1 = Exc (Error UnicodeDecodeError).
Proof.
  intros Hc Hd0 Hg Hw Hq Hbad.
  rewrite (smtp_handshake a env st d0 d1 d2 d3 greeting _ Hc Hd0 Hg Hw Hq).
  now rewrite Hbad.
Qed.

(** X17.  The greeting is read and not looked at: two servers that differ
    only in the line they greet with get the same result. *)
Theorem check_smtp_ignores_greeting (a : Args) (env env' : Env) (st : State)
    (d0 d1 d2 d3 : Z) (greeting greeting' quit_response : string) :
  peer_connect env (port a) = Resolves d0 tt ->
  peer_connect env' (port a) = Resolves d0 tt -> d0 < TIMEOUT * 1000 ->
  peer_read env 0%nat = Resolves d1 greeting ->
  peer_read env' 0%nat = Resolves d1 greeting' ->
  peer_write env ("QUIT" +:+ CRLF) = Resolves d2 tt ->
  peer_write env' ("QUIT" +:+ CRLF) = Resolves d2 tt ->
  peer_read env 1%nat = Resolves d3 quit_response ->
  peer_read env' 1%nat = Resolves d3 quit_response ->
  (coroutine check_smtp_gen a env st).1 = (coroutine check_smtp_gen a env' st).1.
Proof.
  intros Hc Hc' Hd0 Hg Hg' Hw Hw' Hq Hq'.
  rewrite (smtp_handshake a env st d0 d1 d2 d3 greeting _ Hc Hd0 Hg Hw Hq).
  rewrite (smtp_handshake a env' st d0 d1 d2 d3 greeting' _ Hc' Hd0 Hg' Hw' Hq').
  reflexivity.
Qed.

End Further.

(** ** The further properties at sample worlds *)

Lemma allowed_header_is_copied_witness :
  headers_out (H := sample_runtime) (sample_config None None) "web"
    (headers sample_args) !! "X-Request-Id" = Some "42".
Proof.
  apply (@allowed_header_is_copied sample_runtime (sample_config None None)
           "web" (headers sample_args) "X-Request-Id" "42").
  - apply list_elem_of_here.
  - reflexivity.
  - discriminate.
Defined.

Lemma headers_out_allow_list_as_set_witness :
  headers_out (H := sample_runtime) (sample_config None None) "web"
    (headers sample_args)
  = headers_out (H := sample_runtime) repeating_config "web" (headers sample_args).
Proof.
  apply (@headers_out_allow_list_as_set sample_runtime (sample_config None None)
           repeating_config "web" (headers sample_args)).
  - intros k. cbn. rewrite !elem_of_cons. tauto.
  - reflexivity.
Defined.

Lemma default_user_agent_witness :
  headers_out (H := sample_runtime) (sample_config None None) "web"
    (headers sample_args) !! "User-Agent" = Some "hastate 0.9.0".
Proof.
  apply (@default_user_agent sample_runtime (sample_config None None) "web"
           (headers sample_args)).
  - right. reflexivity.
  - discriminate.
Defined.

Lemma check_mysql_refused_witness :
  let '(r, st') :=
    coroutine (@check_mysql_gen sample_runtime) sample_args
      (mysql_env (Some "monitor") (Some "secret")
         (Resolves 20 {| OK := false; detail := "Access denied" |}))
      sample_state in
  r = Val (500, "MySQL sez Access denied")
  /\ log st' = [EvMySQLClient 8080 10; EvMySQLConnect "monitor" "secret"].
Proof.
  exact (@check_mysql_refused sample_runtime sample_args
           (mysql_env (Some "monitor") (Some "secret")
              (Resolves 20 {| OK := false; detail := "Access denied" |}))
           sample_state "monitor" "secret" 20
           {| OK := false; detail := "Access denied" |}
           eq_refl eq_refl eq_refl eq_refl).
Defined.

Lemma check_mysql_accepted_witness :
  let '(r, st') :=
    coroutine (@check_mysql_gen sample_runtime) sample_args
      (mysql_env (Some "monitor") (Some "secret")
         (Resolves 20 {| OK := true; detail := "OK" |}))
      sample_state in
  r = Val (200, "MySQL connect response: OK")
  /\ log st' = [EvMySQLClient 8080 10; EvMySQLConnect "monitor" "secret";
                EvMySQLQuit].
Proof.
  exact (@check_mysql_accepted sample_runtime sample_args
           (mysql_env (Some "monitor") (Some "secret")
              (Resolves 20 {| OK := true; detail := "OK" |}))
           sample_state "monitor" "secret" 20 1 {| OK := true; detail := "OK" |}
           eq_refl eq_refl eq_refl eq_refl eq_refl).
Defined.

Lemma check_mysql_quit_failure_escapes_witness :
  (coroutine (@check_mysql_gen sample_runtime) sample_args
     (with_quit (Fails 3 StreamClosedError)
        (mysql_env (Some "monitor") (Some "secret")
           (Resolves 20 {| OK := true; detail := "OK" |})))
     sample_state).1
  = Exc (Error StreamClosedError).
Proof.
  exact (@check_mysql_quit_failure_escapes sample_runtime sample_args
           (with_quit (Fails 3 StreamClosedError)
              (mysql_env (Some "monitor") (Some "secret")
                 (Resolves 20 {| OK := true; detail := "OK" |})))
           sample_state "monitor" "secret" 20 3 {| OK := true; detail := "OK" |}
           StreamClosedError eq_refl eq_refl eq_refl eq_refl eq_refl).
Defined.

Lemma check_tcp_other_error_escapes_witness :
  (coroutine (@check_tcp_gen sample_runtime) sample_args
     (with_connect (Fails 2 (OtherError "boom")) (smtp_env Never))
     sample_state).1
  = Exc (Error (OtherError "boom")).
Proof.
  apply (@check_tcp_other_error_escapes sample_runtime sample_args
           (with_connect (Fails 2 (OtherError "boom")) (smtp_env Never))
           sample_state 2 (OtherError "boom")).
  - reflexivity.
  - reflexivity.
  - discriminate.
  - reflexivity.
Defined.

Lemma smtp_failure_witness :
  (coroutine (@check_smtp_gen sample_runtime) sample_args
     (sample_env None None (Fails 500 (SocketError (Some 104))) Never Never
        (true, sample_info))
     sample_state).1
  = Val (503, "Unexpected socket error 104 after 0.530s").
Proof.
  exact (@smtp_failure sample_runtime sample_args
           (sample_env None None (Fails 500 (SocketError (Some 104))) Never Never
              (true, sample_info))
           sample_state (SocketError (Some 104)) (30 + 500)
           (stops_greeting
              (sample_env None None (Fails 500 (SocketError (Some 104))) Never Never
                 (true, sample_info))
              (port sample_args) 30 500 (SocketError (Some 104))
              eq_refl eq_refl eq_refl)).
Defined.

Lemma check_smtp_connect_timeout_witness :
  let '(r, st') :=
    coroutine (@check_smtp_gen sample_runtime) sample_args
      (with_connect Never (smtp_env Never)) sample_state in
  r = Val (503, "Connection timed out after 10.00s")
  /\ log st' = [EvSocket 3; EvIOStream 3; EvConnect 3 "127.0.0.1" 8080; EvClose 3].
Proof.
  exact (@check_smtp_connect_timeout sample_runtime sample_args
           (with_connect Never (smtp_env Never)) sample_state (TIMEOUT * 1000)
           (attempt_never (peer_connect (with_connect Never (smtp_env Never)) (port sample_args)) eq_refl)).
Defined.

Lemma check_smtp_exchange_witness :
  let '(r, st') :=
    coroutine (@check_smtp_gen sample_runtime) sample_args
      (smtp_env (Resolves 7 ("221 bye" +:+ CRLF))) sample_state in
  r <> Pending
  /\ now st' = 43
  /\ log st' = [EvSocket 3; EvIOStream 3; EvConnect 3 "127.0.0.1" 8080;
                EvReadUntil 3 CRLF; EvWrite 3 ("QUIT" +:+ CRLF);
                EvReadUntil 3 CRLF; EvClose 3].
Proof.
  exact (@check_smtp_exchange sample_runtime sample_args
           (smtp_env (Resolves 7 ("221 bye" +:+ CRLF))) sample_state
           30 5 1 7 ("220 ok" +:+ CRLF) ("221 bye" +:+ CRLF)
           eq_refl eq_refl eq_refl eq_refl eq_refl).
Defined.

Lemma check_smtp_accepts_221_witness :
  (coroutine (@check_smtp_gen sample_runtime) sample_args
     (smtp_env (Resolves 7 ("221 bye" +:+ CRLF))) sample_state).1
  = Val (200, "Connected in 0.04s").
Proof.
  exact (@check_smtp_accepts_221 sample_runtime sample_args
           (smtp_env (Resolves 7 ("221 bye" +:+ CRLF))) sample_state
           30 5 1 7 ("220 ok" +:+ CRLF) " "%char ("bye" +:+ CRLF)
           (code_points ("bye" +:+ CRLF))
           eq_refl eq_refl eq_refl eq_refl eq_refl eq_refl eq_refl eq_refl).
Defined.

Lemma check_smtp_undecodable_reply_witness :
  (coroutine (@check_smtp_gen sample_runtime) sample_args
     (smtp_env (Resolves 7 (String (ascii_of_nat 255) CRLF))) sample_state).1
  = Exc (Error UnicodeDecodeError).
Proof.
  exact (@check_smtp_undecodable_reply sample_runtime sample_args
           (smtp_env (Resolves 7 (String (ascii_of_nat 255) CRLF))) sample_state
           30 5 1 7 ("220 ok" +:+ CRLF) (String (ascii_of_nat 255) CRLF)
           eq_refl eq_refl eq_refl eq_refl eq_refl eq_refl).
Defined.

Lemma check_smtp_ignores_greeting_witness :
  (coroutine (@check_smtp_gen sample_runtime) sample_args
     (smtp_env (Resolves 7 ("221 bye" +:+ CRLF))) sample_state).1
  = (coroutine (@check_smtp_gen sample_runtime) sample_args
       (sample_env None None (Resolves 5 ("554 no service" +:+ CRLF))
          (Resolves 7 ("221 bye" +:+ CRLF)) Never (true, sample_info))
       sample_state).1.
Proof.
  exact (@check_smtp_ignores_greeting sample_runtime sample_args
           (smtp_env (Resolves 7 ("221 bye" +:+ CRLF)))
           (sample_env None None (Resolves 5 ("554 no service" +:+ CRLF))
              (Resolves 7 ("221 bye" +:+ CRLF)) Never (true, sample_info))
           sample_state 30 5 1 7 ("220 ok" +:+ CRLF) ("554 no service" +:+ CRLF)
           ("221 bye" +:+ CRLF)
           eq_refl eq_refl eq_refl eq_refl eq_refl eq_refl eq_refl eq_refl eq_refl).
Defined.
